(** * Bitstring Status List debugger: the decode pipeline and the bit accessor

    A shallow embedding of [BitstringService] (the class of
    [services/bitstringService.ts]) in its two revisions:

    - the revision that reports failures by throwing [Error]
      (module [ThrowingService]);
    - the revision that returns a [DetailedError] value
      (module [BitstringService]).

    JavaScript numbers that hold integers are modelled by [Z]: every
    operation the service applies to an index (comparison, division by 8,
    [Math.floor], remainder, increment inside the checked range) is exact on
    integer-valued doubles.  Bit operators go through the 32-bit conversions
    the language prescribes.  Strings are sequences of characters; the
    service compares, concatenates and slices them and matches ASCII
    prefixes and separators only.  Calls to [console] are left out. *)

From Stdlib Require Import ZArith List String Ascii Bool Lia.
From Stdlib Require Import DecimalString.
From Stdlib Require Strings.Byte.
From Equations Require Import Equations.
Import ListNotations.

Local Open Scope string_scope.
Local Open Scope Z_scope.

(** ** JavaScript primitives used by the service *)

Module JS.

(** A value that was thrown: an [Error] instance carrying a message, or
    anything else (pako throws plain strings). *)
Inductive Thrown : Type :=
| ThrownTypeError (message : string)
| ThrownError (message : string)
| ThrownOther.

(** [error instanceof Error ? error.message : fallback] *)
Definition messageOr (fallback : string) (t : Thrown) : string :=
  match t with
  | ThrownTypeError m => m
  | ThrownError m => m
  | ThrownOther => fallback
  end.

(** A computation that returns or throws. *)
Definition Completion (A : Type) : Type := (Thrown + A)%type.

(** ToUint32 and ToInt32 on an integer-valued number. *)
Definition ToUint32 (z : Z) : Z := z mod 2 ^ 32.

Definition ToInt32 (z : Z) : Z :=
  let m := z mod 2 ^ 32 in
  if m >=? 2 ^ 31 then m - 2 ^ 32 else m.

(** An operand that may be [undefined] (an out-of-range typed-array read):
    ToNumber(undefined) is NaN and ToInt32(NaN) is 0. *)
Definition ToInt32u (v : option Z) : Z :=
  match v with
  | Some z => ToInt32 z
  | None => 0
  end.

(** [a << b]: the left operand as int32, the count masked to five bits,
    the result wrapped to int32. *)
Definition shl (a b : Z) : Z :=
  ToInt32 (Z.shiftl (ToInt32 a) (Z.land (ToUint32 b) 31)).

(** [a & b]: both operands as int32; the conjunction of two int32 values
    is an int32 value.  The left operand may be [undefined]. *)
Definition and (a : option Z) (b : Z) : Z :=
  Z.land (ToInt32u a) (ToInt32 b).

(** [a % b]: the sign follows the dividend. *)
Definition rem (a b : Z) : Z := Z.rem a b.

(** [Math.floor(a / 8)] on an integer [a]: the quotient is exact (a
    division by a power of two), so the result is the floor quotient. *)
Definition floorDiv8 (a : Z) : Z := a / 8.

(** Number to string, for integers below 10^21 in magnitude (beyond that
    JavaScript switches to exponent notation). *)
Definition numberToString (z : Z) : string :=
  NilZero.string_of_int (Z.to_int z).

(** [s.startsWith(p)] *)
Definition startsWith (s p : string) : bool := String.prefix p s.

(** [s.substring(n)] for [0 <= n] *)
Fixpoint substringFrom (n : nat) (s : string) : string :=
  match n, s with
  | O, _ => s
  | S n', String _ s' => substringFrom n' s'
  | S _, EmptyString => EmptyString
  end.

(** [s.includes(t)] *)
Fixpoint includes (s t : string) : bool :=
  String.prefix t s ||
  match s with
  | EmptyString => false
  | String _ s' => includes s' t
  end.

(** [s.replace(/c/g, d)] for single characters *)
Fixpoint replaceAll (c d : ascii) (s : string) : string :=
  match s with
  | EmptyString => EmptyString
  | String x s' =>
      String (if Ascii.eqb x c then d else x) (replaceAll c d s')
  end.

(** [s.split(sep)] for a single-character separator *)
Fixpoint split (sep : ascii) (s : string) : list string :=
  match s with
  | EmptyString => [EmptyString]
  | String x s' =>
      if Ascii.eqb x sep then EmptyString :: split sep s'
      else match split sep s' with
           | [] => [String x EmptyString]
           | h :: t => String x h :: t
           end
  end.

(** [c.repeat(n)] *)
Fixpoint repeat (c : ascii) (n : nat) : string :=
  match n with
  | O => EmptyString
  | S n' => String c (repeat c n')
  end.

(** [s.length] *)
Definition strlen (s : string) : Z := Z.of_nat (String.length s).

(** The double-quote character, as a string. *)
Definition dquote : string := String "034"%char EmptyString.

(** A value of the language, as far as a parsed JSON document can hold
    one, plus [undefined].  Numbers are integer-valued: the service only
    tests a document number for truthiness or prints it. *)
#[warnings="-register-all"]
Inductive JSValue : Type :=
| JUndefined
| JNull
| JBool (b : bool)
| JNumber (z : Z)
| JString (s : string)
| JArray (items : list JSValue)
| JObject (fields : list (string * JSValue)).

(** ToBoolean *)
Definition truthy (v : JSValue) : bool :=
  match v with
  | JUndefined | JNull => false
  | JBool b => b
  | JNumber z => negb (z =? 0)
  | JString s => negb (String.eqb s EmptyString)
  | JArray _ | JObject _ => true
  end.

Fixpoint lookup (k : string) (fields : list (string * JSValue)) : JSValue :=
  match fields with
  | [] => JUndefined
  | (k', v) :: rest => if String.eqb k k' then v else lookup k rest
  end.

(** [v.k] for the property names the service reads ([type], [id],
    [credentialSubject], [encodedList], [statusPurpose]): none of them is
    defined on a primitive or on an array, and reading a property of
    [undefined] or [null] throws a [TypeError]. *)
Definition getProp (v : JSValue) (k : string) : Completion JSValue :=
  match v with
  | JUndefined =>
      inl (ThrownTypeError
             ("Cannot read properties of undefined (reading '" ++ k ++ "')"))
  | JNull =>
      inl (ThrownTypeError
             ("Cannot read properties of null (reading '" ++ k ++ "')"))
  | JObject fields => inr (lookup k fields)
  | _ => inr JUndefined
  end.

(** [v === s] for a string literal [s] *)
Definition strictEqString (v : JSValue) (s : string) : bool :=
  match v with
  | JString s' => String.eqb s' s
  | _ => false
  end.

(** Whether an object has an own property of this name. *)
Definition hasOwn (k : string) (fields : list (string * JSValue)) : bool :=
  existsb (fun field => String.eqb k (fst field)) fields.

(** ToString, as a template literal applies it.  A primitive prints as
    itself.  An array is joined with commas, [undefined] and [null] elements
    printing as nothing and the first element that cannot be printed
    throwing.  An object of a parsed document prints through the inherited
    [toString] as [[object Object]], unless it has an own [toString]
    property: that one is data, not a function, the inherited [valueOf]
    returns the object itself, and the conversion throws a [TypeError]. *)
Fixpoint toString (v : JSValue) : Completion string :=
  match v with
  | JUndefined => inr "undefined"
  | JNull => inr "null"
  | JBool true => inr "true"
  | JBool false => inr "false"
  | JNumber z => inr (numberToString z)
  | JString s => inr s
  | JArray items =>
      match
        (fix join (l : list JSValue) : Completion (list string) :=
           match l with
           | [] => inr []
           | x :: rest =>
               match match x with
                     | JUndefined | JNull => inr EmptyString
                     | _ => toString x
                     end with
               | inl t => inl t
               | inr next =>
                   match join rest with
                   | inl t => inl t
                   | inr others => inr (next :: others)
                   end
               end
           end) items
      with
      | inl t => inl t
      | inr parts => inr (String.concat "," parts)
      end
  | JObject fields =>
      if hasOwn "toString" fields then
        inl (ThrownTypeError "Cannot convert object to primitive value")
      else inr "[object Object]"
  end.

End JS.

(** ** Data model ([types/bitstring.ts]) *)

(** A [Uint8Array]: a sequence of bytes. *)
Definition Uint8Array : Type := list Byte.byte.

Definition byteValue (b : Byte.byte) : Z := Z.of_N (Byte.to_N b).

(** [a.length] *)
Definition lengthOf (a : Uint8Array) : Z := Z.of_nat (List.length a).

(** [a[i]]: [undefined] outside [0 .. a.length - 1]. *)
Definition at_ (a : Uint8Array) (i : Z) : option Z :=
  if i <? 0 then None
  else option_map byteValue (nth_error a (Z.to_nat i)).

Inductive ErrorCode : Type :=
| NETWORK_ERROR | CORS_ERROR | TIMEOUT
| NOT_FOUND | UNAUTHORIZED | FORBIDDEN | SERVER_ERROR | BAD_GATEWAY
| SERVICE_UNAVAILABLE
| INVALID_JSON | INVALID_CREDENTIAL_FORMAT | MISSING_CREDENTIAL_TYPE
| UNSUPPORTED_CREDENTIAL_TYPE | MISSING_BITSTRING_LIST
| BASE64_DECODE_ERROR | GZIP_DECODE_ERROR | JWT_PARSE_ERROR
| DECOMPRESSION_ERROR
| INVALID_BIT_INDEX | INVALID_BIT_RANGE
| UNKNOWN_ERROR.

Record DetailedError : Type := createError {
  code : ErrorCode;
  message : string;
  details : option string;
  statusCode : option Z;
  suggestion : option string
}.

Record BitStatus : Type := mkBitStatus {
  index : Z;
  status : bool;
  purpose : string
}.

(** ** The platform and the libraries the service calls

    [fetch], [atob], [JSON.parse], the [base64url] package and [pako] are
    not part of the service; each one either returns or throws. *)

Module Http.

Record Response : Type := mkResponse {
  ok : bool;
  status : Z;
  statusText : string;
  (** [await response.json()] *)
  json : JS.Completion JS.JSValue
}.

End Http.

Class Runtime : Type := {
  (** [await fetch(url)] *)
  fetch : string -> JS.Completion Http.Response;
  (** [base64url.toBuffer(x)] *)
  base64url_toBuffer : JS.JSValue -> JS.Completion Uint8Array;
  (** [atob(s)]; the result is a binary string *)
  atob : string -> JS.Completion string;
  (** pako's [inflate(data)] *)
  inflate : Uint8Array -> JS.Completion Uint8Array;
  (** pako's [inflate(data, { raw: true })] *)
  inflateRaw : Uint8Array -> JS.Completion Uint8Array;
  (** [JSON.parse(s)] *)
  JSON_parse : string -> JS.Completion JS.JSValue
}.

(** ** Control flow of a function body

    A block of the service either throws (to the enclosing [catch]),
    leaves the function with an early [return] of an error value, or
    goes on with a value. *)

Inductive Outcome (E A : Type) : Type :=
| Threw (t : JS.Thrown)
| Returned (e : E)
| Next (a : A).

Arguments Threw {E A} t.
Arguments Returned {E A} e.
Arguments Next {E A} a.

Definition bind {E A B : Type} (c : Outcome E A) (k : A -> Outcome E B)
  : Outcome E B :=
  match c with
  | Threw t => Threw t
  | Returned e => Returned e
  | Next a => k a
  end.

Notation "'let*' x ':=' c 'in' k" := (bind c (fun x => k))
  (at level 10, x pattern, c at level 100, k at level 200).

(** A call that may throw, inside a block with no handler of its own. *)
Definition call {E A : Type} (c : JS.Completion A) : Outcome E A :=
  match c with
  | inl t => Threw t
  | inr a => Next a
  end.

(** [try { body } catch (error) { return handler(error) }] around a whole
    function body. *)
Definition tryCatch {E A : Type} (body : Outcome E A)
  (handler : JS.Thrown -> E) : E + A :=
  match body with
  | Threw t => inl (handler t)
  | Returned e => inl e
  | Next a => inr a
  end.

(** ** The revision that throws ([src/services/bitstringService.ts]) *)

Module ThrowingService.
Import JS.

Definition getBitStatus (decodedBits : Uint8Array) (index : Z)
  : Completion bool :=
  let byteIndex := floorDiv8 index in
  let bitIndex := rem index 8 in
  if byteIndex >=? lengthOf decodedBits then
    inl (ThrownError
           ("Index " ++ numberToString index ++ " is out of range (max: "
            ++ numberToString (lengthOf decodedBits * 8 - 1) ++ ")"))
  else
    let byte := at_ decodedBits byteIndex in
    inr (negb (and byte (shl 1 bitIndex) =? 0)).

(** The [for (let i = startIndex; i <= endIndex; i++)] loop of
    [getBitRange]; a throwing [getBitStatus] leaves the loop. *)
Equations? getBitRange_loop (decodedBits : Uint8Array) (endIndex i : Z)
  (result : list BitStatus) : Completion (list BitStatus)
  by wf (Z.to_nat (endIndex + 1 - i)) lt :=
getBitRange_loop decodedBits endIndex i result with Z_le_gt_dec i endIndex => {
  | left _ with getBitStatus decodedBits i => {
      | inl t := inl t
      | inr b :=
          getBitRange_loop decodedBits endIndex (i + 1)
            (result ++ [mkBitStatus i b "revocation"]) }
  | right _ := inr result }.
Proof. lia. Qed.

Definition getBitRange (decodedBits : Uint8Array) (startIndex endIndex : Z)
  : Completion (list BitStatus) :=
  if (startIndex <? 0) || (endIndex <? startIndex) then
    inl (ThrownError
           "Invalid range: startIndex must be >= 0 and endIndex must be >= startIndex")
  else
    let maxIndex := lengthOf decodedBits * 8 - 1 in
    if (startIndex >? maxIndex) || (endIndex >? maxIndex) then
      inl (ThrownError
             ("Range [" ++ numberToString startIndex ++ ", "
              ++ numberToString endIndex ++ "] exceeds maximum index "
              ++ numberToString maxIndex))
    else
      getBitRange_loop decodedBits endIndex startIndex [].

End ThrowingService.

(** ** The revision that returns [DetailedError] *)

Module BitstringService.
Import JS.

Inductive CredentialType : Type := embedded | enveloped.

Record DecodedStatusList : Type := mkDecoded {
  credential : JSValue;
  bitstringList : JSValue;
  decodedBits : Uint8Array;
  totalBits : Z;
  credentialType : CredentialType;
  originalEnvelopedCredential : option JSValue
}.

Definition StatusListResult : Type := (DetailedError + DecodedStatusList)%type.

(** *** Bit accessor *)

Definition getBitStatus (decodedBits : Uint8Array) (index : Z)
  : DetailedError + bool :=
  if index <? 0 then
    inl (createError INVALID_BIT_INDEX
           "Invalid bit index"
           (Some ("Bit index must be non-negative, but got "
                  ++ numberToString index ++ "."))
           None
           (Some "Use a valid index starting from 0."))
  else
    let byteIndex := floorDiv8 index in
    let bitIndex := rem index 8 in
    let maxIndex := lengthOf decodedBits * 8 - 1 in
    if byteIndex >=? lengthOf decodedBits then
      inl (createError INVALID_BIT_INDEX
             "Bit index out of range"
             (Some ("Index " ++ numberToString index
                    ++ " exceeds the maximum index "
                    ++ numberToString maxIndex ++ "."))
             None
             (Some ("Valid range is 0 to " ++ numberToString maxIndex
                    ++ ".")))
    else
      let byte := at_ decodedBits byteIndex in
      inr (negb (and byte (shl 1 bitIndex) =? 0)).

(** The [for (let i = startIndex; i <= endIndex; i++)] loop of
    [getBitRange]: an entry is pushed only when [getBitStatus] returned a
    boolean. *)
Equations? getBitRange_loop (decodedBits : Uint8Array) (endIndex i : Z)
  (result : list BitStatus) : list BitStatus
  by wf (Z.to_nat (endIndex + 1 - i)) lt :=
getBitRange_loop decodedBits endIndex i result with Z_le_gt_dec i endIndex => {
  | left _ with getBitStatus decodedBits i => {
      | inr bitStatus :=
          getBitRange_loop decodedBits endIndex (i + 1)
            (result ++ [mkBitStatus i bitStatus "revocation"])
      | inl _ :=
          getBitRange_loop decodedBits endIndex (i + 1) result }
  | right _ := result }.
Proof. all: lia. Qed.

Definition getBitRange (decodedBits : Uint8Array) (startIndex endIndex : Z)
  : DetailedError + list BitStatus :=
  if startIndex <? 0 then
    inl (createError INVALID_BIT_RANGE
           "Invalid start index"
           (Some ("Start index must be non-negative, but got "
                  ++ numberToString startIndex ++ "."))
           None
           (Some "Use a valid start index starting from 0."))
  else if endIndex <? startIndex then
    inl (createError INVALID_BIT_RANGE
           "Invalid bit range"
           (Some ("End index (" ++ numberToString endIndex
                  ++ ") must be greater than or equal to start index ("
                  ++ numberToString startIndex ++ ")."))
           None
           (Some "Ensure the end index is not less than the start index."))
  else
    let maxIndex := lengthOf decodedBits * 8 - 1 in
    if startIndex >? maxIndex then
      inl (createError INVALID_BIT_RANGE
             "Start index out of range"
             (Some ("Start index " ++ numberToString startIndex
                    ++ " exceeds the maximum index "
                    ++ numberToString maxIndex ++ "."))
             None
             (Some ("Valid range is 0 to " ++ numberToString maxIndex
                    ++ ".")))
    else if endIndex >? maxIndex then
      inl (createError INVALID_BIT_RANGE
             "End index out of range"
             (Some ("End index " ++ numberToString endIndex
                    ++ " exceeds the maximum index "
                    ++ numberToString maxIndex ++ "."))
             None
             (Some ("Valid range is 0 to " ++ numberToString maxIndex
                    ++ ".")))
    else
      let rangeSize := endIndex - startIndex + 1 in
      if rangeSize >? 10000 then
        inl (createError INVALID_BIT_RANGE
               "Range too large"
               (Some ("Range size (" ++ numberToString rangeSize
                      ++ ") is too large. Maximum allowed is 10000 bits."))
               None
               (Some "Try a smaller range or check specific bits individually."))
      else
        inr (getBitRange_loop decodedBits endIndex startIndex []).

(** *** Decoding the encoded list *)

(** [base64.length % 4] *)
Definition lengthMod4 (base64 : string) : nat :=
  (String.length base64 mod 4)%nat.

Arguments lengthMod4 : simpl never.

(** [while (base64.length % 4) { base64 += '=' }] *)
Equations? padLoop (base64 : string) : string
  by wf ((4 - lengthMod4 base64) mod 4)%nat lt :=
padLoop base64 with Nat.eq_dec (lengthMod4 base64) 0 => {
  | left _ := base64
  | right _ := padLoop (base64 ++ "=") }.
Proof.
  assert (Happ : forall a b : string,
             String.length (a ++ b) = (String.length a + String.length b)%nat).
  { induction a as [|c a IH]; intro b; simpl; [reflexivity | now rewrite IH]. }
  unfold lengthMod4 in *. rewrite Happ. cbn [String.length].
  generalize dependent (String.length base64). clear. intros len Hne.
  pose proof (Nat.mod_upper_bound len 4 ltac:(lia)) as Hlt.
  rewrite <- (Nat.Div0.add_mod_idemp_l len 1 4).
  destruct (len mod 4)%nat as [|[|[|[|r]]]]; [lia | | | | lia];
    cbn; lia.
Qed.

(** [bytes[i] = binaryString.charCodeAt(i)] for every [i], then
    [Buffer.from(bytes)] *)
Definition bytesOfBinaryString (binaryString : string) : Uint8Array :=
  map byte_of_ascii (list_ascii_of_string binaryString).

Definition hexDigit (d : Z) : ascii :=
  nth (Z.to_nat d) (list_ascii_of_string "0123456789abcdef") "0"%char.

(** [b.toString(16).padStart(2, '0')] *)
Definition hexByte (b : Byte.byte) : string :=
  String (hexDigit (byteValue b / 16))
    (String (hexDigit (byteValue b mod 16)) EmptyString).

(** [compressed[0] === 0x1f && compressed[1] === 0x8b] *)
Definition hasGzipMagic (compressed : Uint8Array) : bool :=
  match at_ compressed 0, at_ compressed 1 with
  | Some b0, Some b1 => (b0 =? 31) && (b1 =? 139)
  | _, _ => false
  end.

(** [new Uint8Array(compressed)]: a copy of the bytes.  The constructor
    throws only when the allocation fails, which a value-level model of
    memory does not have: the [catch] around the call in
    [decodeStatusList] is kept below as the source has it, and is entered
    by no value of this model. *)
Definition newUint8Array (source : Uint8Array) : Completion Uint8Array :=
  inr source.

Section Pipeline.
Context {RT : Runtime}.

(** [decodeStatusList], first block: Base64URL to bytes.  The package is
    tried first; when it throws, the string is translated and padded by hand
    and handed to [atob].  [encodedList.replace] throws a [TypeError] when
    [encodedList] is not a string. *)
Definition decodeStatusList_base64 (encodedList : JSValue)
  : Outcome DetailedError Uint8Array :=
  match base64url_toBuffer encodedList with
  | inr compressed => Next compressed
  | inl _ =>
      let* base64 :=
        match encodedList with
        | JString s =>
            Next (padLoop (replaceAll "_" "/" (replaceAll "-" "+" s)))
        | JUndefined =>
            Threw (ThrownTypeError
                     "Cannot read properties of undefined (reading 'replace')")
        | JNull =>
            Threw (ThrownTypeError
                     "Cannot read properties of null (reading 'replace')")
        | _ => Threw (ThrownTypeError "encodedList.replace is not a function")
        end in
      match atob base64 with
      | inr binaryString => Next (bytesOfBinaryString binaryString)
      | inl atobError =>
          Returned
            (createError BASE64_DECODE_ERROR
               "Failed to decode Base64URL data"
               (Some ("The encoded list could not be decoded from Base64URL format. "
                      ++ messageOr "Unknown error" atobError))
               None
               (Some "The encoded data may be corrupted or not properly Base64URL encoded."))
      end
  end.

(** [decodeStatusList], second block: GZIP when the magic bytes say so,
    else raw DEFLATE, else the bytes as they are. *)
Definition decodeStatusList_decompress (compressed : Uint8Array)
  : Outcome DetailedError Uint8Array :=
  let hex := String.concat " " (map hexByte (firstn 10 compressed)) in
  if hasGzipMagic compressed then
    match inflate compressed with
    | inr decompressed => Next decompressed
    | inl gzipError =>
        Returned
          (createError GZIP_DECODE_ERROR
             "Failed to decompress GZIP data"
             (Some ("The GZIP compressed data could not be decompressed. "
                    ++ messageOr "Unknown error" gzipError))
             None
             (Some "The compressed data may be corrupted. Try fetching the credential again."))
    end
  else
    match inflateRaw compressed with
    | inr decompressed => Next decompressed
    | inl _ =>
        match newUint8Array compressed with
        | inr decompressed => Next decompressed
        | inl _ =>
            Returned
              (createError DECOMPRESSION_ERROR
                 "Failed to decompress data"
                 (Some ("Unable to decompress the encoded list. Tried GZIP and raw deflate. Data header: "
                        ++ hex))
                 None
                 (Some "The data may not be compressed or uses an unsupported compression format."))
        end
    end.

(** [decodeStatusList] returns [{ data }] or [{ error }].  Its [catch]
    block logs [encodedList.substring(0, 100)] before it returns the
    [UNKNOWN_ERROR]; on an [encodedList] that is not a string that call
    throws a [TypeError], which leaves the function. *)
Definition decodeStatusList (encodedList : JSValue)
  : Completion (DetailedError + Uint8Array) :=
  match (let* compressed := decodeStatusList_base64 encodedList in
         decodeStatusList_decompress compressed) with
  | Next decompressed => inr (inr decompressed)
  | Returned error => inr (inl error)
  | Threw error =>
      match encodedList with
      | JString _ =>
          inr (inl (createError UNKNOWN_ERROR
                      "Failed to decode status list"
                      (Some (messageOr "Unknown decoding error" error))
                      None
                      (Some "An unexpected error occurred while decoding. Please report this issue.")))
      | JUndefined =>
          inl (ThrownTypeError
                 "Cannot read properties of undefined (reading 'substring')")
      | JNull =>
          inl (ThrownTypeError
                 "Cannot read properties of null (reading 'substring')")
      | _ => inl (ThrownTypeError "encodedList.substring is not a function")
      end
  end.

(** *** Unwrapping an enveloped credential *)

Definition possiblePrefixes : list string :=
  [ "data:application/vc+jwt,";
    "data:application/vc-ld+jwt,";
    "data:application/vc+ld+jwt,";
    "data:application/jwt," ].

(** The [for (const prefix of possiblePrefixes)] loop: the first prefix
    the token starts with is cut off and the loop is left.  The result is
    the pair of [jwtToken] and [prefixFound]. *)
Fixpoint stripPrefix (prefixes : list string) (jwtToken : string)
  : string * bool :=
  match prefixes with
  | [] => (jwtToken, false)
  | prefix :: rest =>
      if startsWith jwtToken prefix then
        (substringFrom (String.length prefix) jwtToken, true)
      else stripPrefix rest jwtToken
  end.

(** [decodeEnvelopedCredential] from the point where the prefix has been
    cut off: the token is split, its payload decoded and parsed. *)
Definition decodeEnvelopedCredential_token (jwtToken : string)
  : Outcome DetailedError JSValue :=
  if String.eqb jwtToken EmptyString then
    Returned
      (createError JWT_PARSE_ERROR
         "Empty JWT token"
         (Some "The JWT token is empty after removing the data URL prefix.")
         None
         (Some "The credential format is invalid."))
  else
    let parts := split "." jwtToken in
    if negb (Z.of_nat (List.length parts) =? 3) then
      Returned
        (createError JWT_PARSE_ERROR
           "Invalid JWT structure"
           (Some ("JWT must have 3 parts (header.payload.signature), but found "
                  ++ numberToString (Z.of_nat (List.length parts))
                  ++ " parts."))
           None
           (Some "The JWT token is malformed or corrupted."))
    else
      let payload := nth 1 parts EmptyString in
      if String.eqb payload EmptyString then
        Returned
          (createError JWT_PARSE_ERROR
             "Empty JWT payload"
             (Some "The JWT payload section is empty.")
             None
             (Some "The JWT token is corrupted."))
      else
        let paddedPayload :=
          payload
          ++ repeat "="
               (Z.to_nat (rem (4 - rem (strlen payload) 4) 4)) in
        match atob (replaceAll "_" "/"
                      (replaceAll "-" "+" paddedPayload)) with
        | inl base64Error =>
            Returned
              (createError BASE64_DECODE_ERROR
                 "Failed to decode JWT payload"
                 (Some ("Could not decode the JWT payload from Base64. "
                        ++ messageOr "Unknown error" base64Error))
                 None
                 (Some "The JWT payload is not valid Base64 encoded data."))
        | inr decodedPayload =>
            match JSON_parse decodedPayload with
            | inl jsonError =>
                Returned
                  (createError INVALID_JSON
                     "Invalid JWT payload JSON"
                     (Some ("The JWT payload is not valid JSON. "
                            ++ messageOr "Unknown error" jsonError))
                     None
                     (Some "The JWT contains malformed data."))
            | inr credentialData =>
                let* subject :=
                  call (getProp credentialData "credentialSubject") in
                if negb (truthy subject) then
                  Returned
                    (createError INVALID_CREDENTIAL_FORMAT
                       "Invalid credential in JWT"
                       (Some "The decoded JWT does not contain a valid StatusListCredential.")
                       None
                       (Some "The JWT payload does not match the expected credential format."))
                else Next credentialData
            end
        end.

(** The [catch] block of [decodeEnvelopedCredential]. *)
Definition decodeEnvelopedCredential_catch (error : Thrown) : DetailedError :=
  createError UNKNOWN_ERROR
    "Failed to decode enveloped credential"
    (Some (messageOr "Unknown error" error))
    None
    (Some "An unexpected error occurred while decoding the JWT.").

Definition decodeEnvelopedCredential (envelopedCred : JSValue)
  : DetailedError + JSValue :=
  tryCatch
    (let* id := call (getProp envelopedCred "id") in
     if negb (truthy id) then
       Returned
         (createError JWT_PARSE_ERROR
            "Missing JWT token"
            (Some "The EnvelopedVerifiableCredential does not contain an id field with the JWT.")
            None
            (Some "The credential format is invalid."))
     else
       let* idString :=
         match id with
         | JString s => Next s
         | _ => Threw (ThrownTypeError "jwtToken.startsWith is not a function")
         end in
       let (jwtToken, prefixFound) := stripPrefix possiblePrefixes idString in
       if negb prefixFound then
         Returned
           (createError JWT_PARSE_ERROR
              "Invalid JWT format"
              (Some ("The id field does not contain a valid JWT token with a recognized prefix. Got: "
                     ++ dquote ++ String.substring 0 50 idString ++ "..."
                     ++ dquote))
              None
              (Some ("Expected format: " ++ dquote
                     ++ "data:application/vc+jwt,{JWT_TOKEN}" ++ dquote
                     ++ " or similar")))
       else decodeEnvelopedCredential_token jwtToken)
    decodeEnvelopedCredential_catch.

(** *** Fetching and validating *)

(** The [switch (response.status)] of [fetchStatusList]. *)
Definition httpError (response : Http.Response) : DetailedError :=
  let status := Http.status response in
  if status =? 404 then
    createError NOT_FOUND "Credential not found"
      (Some "The URL returned a 404 Not Found error.") (Some 404)
      (Some "Verify the URL is correct and the credential exists.")
  else if status =? 401 then
    createError UNAUTHORIZED "Authentication required"
      (Some "The server requires authentication to access this credential.")
      (Some 401)
      (Some "Provide valid authentication credentials or contact the credential issuer.")
  else if status =? 403 then
    createError FORBIDDEN "Access denied"
      (Some "You don't have permission to access this credential.")
      (Some 403)
      (Some "Contact the credential issuer for access permissions.")
  else if status =? 500 then
    createError SERVER_ERROR "Server error"
      (Some "The credential server encountered an internal error.")
      (Some 500)
      (Some "Try again later or contact the server administrator.")
  else if status =? 502 then
    createError BAD_GATEWAY "Bad gateway"
      (Some "The server received an invalid response from an upstream server.")
      (Some 502)
      (Some "Try again later. The issue is likely temporary.")
  else if status =? 503 then
    createError SERVICE_UNAVAILABLE "Service unavailable"
      (Some "The credential service is temporarily unavailable.")
      (Some 503)
      (Some "The service may be under maintenance. Try again later.")
  else
    createError SERVER_ERROR
      ("HTTP " ++ numberToString status ++ " error")
      (Some (if String.eqb (Http.statusText response) EmptyString
             then "Server returned an error response."
             else Http.statusText response))
      (Some status)
      (Some "Check the URL and try again later.").

(** The checks of [fetchStatusList] between unwrapping and decoding: the
    subject must be there, be a [BitstringStatusList] and carry an encoded
    list.  On success the block goes on with [bitstringList] and its
    [encodedList]. *)
Definition validateCredentialSubject (statusListCredential : JSValue)
  : Outcome DetailedError (JSValue * JSValue) :=
  let* bitstringList :=
    call (getProp statusListCredential "credentialSubject") in
  if negb (truthy bitstringList) then
    Returned
      (createError MISSING_BITSTRING_LIST
         "Missing BitstringStatusList"
         (Some "The credential does not contain a credentialSubject field.")
         None
         (Some "The credential structure is invalid. Verify it's a status list credential."))
  else
    let* type := call (getProp bitstringList "type") in
    if negb (strictEqString type "BitstringStatusList") then
      let* found := call (toString type) in
      Returned
        (createError INVALID_CREDENTIAL_FORMAT
           "Invalid BitstringStatusList"
           (Some ("Expected type " ++ dquote ++ "BitstringStatusList"
                  ++ dquote ++ " but got " ++ dquote ++ found
                  ++ dquote ++ "."))
           None
           (Some "The credential is not a valid Bitstring Status List credential."))
    else
      let* encodedList := call (getProp bitstringList "encodedList") in
      if negb (truthy encodedList) then
        Returned
          (createError INVALID_CREDENTIAL_FORMAT
             "Missing encoded list"
             (Some "The BitstringStatusList does not contain an encodedList field.")
             None
             (Some "The status list credential is incomplete or corrupted."))
      else Next (bitstringList, encodedList).

(** [Array.isArray(v) || typeof v === 'string'] *)
Definition isArrayOrString (v : JSValue) : bool :=
  match v with
  | JArray _ | JString _ => true
  | _ => false
  end.

(** [fetchError instanceof TypeError && fetchError.message.includes('CORS')] *)
Definition isCorsFailure (fetchError : Thrown) : bool :=
  match fetchError with
  | ThrownTypeError m => includes m "CORS"
  | _ => false
  end.

Definition fetchStatusList (url : string) : StatusListResult :=
  tryCatch
    (match fetch url with
     | inl fetchError =>
         if isCorsFailure fetchError then
           Returned
             (createError CORS_ERROR
                "Cross-origin request blocked"
                (Some "The server doesn't allow requests from this domain.")
                None
                (Some "Contact the server administrator to enable CORS, or use a proxy server."))
         else
           Returned
             (createError NETWORK_ERROR
                "Unable to connect to the server"
                (Some (messageOr "Network request failed" fetchError))
                None
                (Some "Check your internet connection and verify the URL is correct."))
     | inr response =>
         if negb (Http.ok response) then Returned (httpError response)
         else
           match Http.json response with
           | inl _ =>
               Returned
                 (createError INVALID_JSON
                    "Invalid JSON response"
                    (Some "The server response is not valid JSON.")
                    None
                    (Some "Verify the URL points to a valid credential endpoint."))
           | inr credential =>
               let* type := call (getProp credential "type") in
               if negb (truthy type) then
                 Returned
                   (createError MISSING_CREDENTIAL_TYPE
                      "Invalid credential format"
                      (Some ("The credential is missing the required "
                             ++ dquote ++ "type" ++ dquote ++ " field."))
                      None
                      (Some "Ensure the URL points to a valid verifiable credential."))
               else
                 let isEnveloped :=
                   strictEqString type "EnvelopedVerifiableCredential" in
                 let* unwrapped :=
                   if isEnveloped then
                     match decodeEnvelopedCredential credential with
                     | inl error => Returned error
                     | inr statusListCredential =>
                         Next (statusListCredential, enveloped)
                     end
                   else if isArrayOrString type then
                     Next (credential, embedded)
                   else
                     let* found := call (toString type) in
                     Returned
                       (createError UNSUPPORTED_CREDENTIAL_TYPE
                          "Unsupported credential type"
                          (Some ("Credential type " ++ dquote
                                 ++ found ++ dquote
                                 ++ " is not supported."))
                          None
                          (Some ("Expected " ++ dquote
                                 ++ "EnvelopedVerifiableCredential" ++ dquote
                                 ++ " or a standard credential with embedded proof."))) in
                 let (statusListCredential, credentialType) := unwrapped in
                 let* checked :=
                   validateCredentialSubject statusListCredential in
                 let (bitstringList, encodedList) := checked in
                 let* decodeResult := call (decodeStatusList encodedList) in
                 match decodeResult with
                 | inl error => Returned error
                 | inr decodedBits =>
                     Next
                       (mkDecoded statusListCredential bitstringList
                          decodedBits (lengthOf decodedBits * 8)
                          credentialType
                          (if isEnveloped then Some credential else None))
                 end
           end
     end)
    (fun error =>
       createError UNKNOWN_ERROR
         "An unexpected error occurred"
         (Some (messageOr "Unknown error" error))
         None
         (Some "Please try again or report this issue if it persists.")).

(** [formatCredentialInfo(decoded).statusPurpose]: the purpose the
    credential declares. *)
Definition statusPurpose (decoded : DecodedStatusList) : Completion JSValue :=
  getProp (bitstringList decoded) "statusPurpose".

End Pipeline.

End BitstringService.

(** ** The rest of the revision that throws

    [decodeStatusList], [decodeEnvelopedCredential] and [fetchStatusList] of
    [src/services/bitstringService.ts].  Failures travel as exceptions;
    [fetchStatusList] turns whatever reaches it into a message string. *)

Module ThrowingDecoder.
Import JS.

(** Sequencing of calls that may throw. *)
Definition andThen {A B : Type} (c : Completion A) (k : A -> Completion B)
  : Completion B :=
  match c with
  | inl t => inl t
  | inr a => k a
  end.

Notation "'do*' x ':=' c 'in' k" := (andThen c (fun x => k))
  (at level 10, x pattern, c at level 100, k at level 200).

(** [s.replace(pat, '')] for a string pattern: the first occurrence of
    [pat], if there is one, is removed. *)
Fixpoint removeFirst (pat s : string) : string :=
  if String.prefix pat s then substringFrom (String.length pat) s
  else match s with
       | EmptyString => EmptyString
       | String c s' => String c (removeFirst pat s')
       end.

(** [v.method(...)] on a value that has no such method: the [TypeError]
    the call raises. *)
Definition noMethod (receiver method : string) (v : JSValue) : Thrown :=
  match v with
  | JUndefined =>
      ThrownTypeError
        ("Cannot read properties of undefined (reading '" ++ method ++ "')")
  | JNull =>
      ThrownTypeError
        ("Cannot read properties of null (reading '" ++ method ++ "')")
  | _ => ThrownTypeError (receiver ++ "." ++ method ++ " is not a function")
  end.

(** [`${error}`] for a thrown [Error]; a thrown value of another kind
    prints as itself, which the model does not carry. *)
Definition thrownToString (t : Thrown) : string :=
  match t with
  | ThrownTypeError m => "TypeError: " ++ m
  | ThrownError m => "Error: " ++ m
  | ThrownOther => EmptyString
  end.

Section WithRuntime.
Context {RT : Runtime}.

(** The body of the outer [try] of [decodeStatusList]. *)
Definition decodeStatusList_try (encodedList : JSValue)
  : Completion Uint8Array :=
  do* compressed :=
    match base64url_toBuffer encodedList with
    | inr compressed => inr compressed
    | inl _ =>
        match encodedList with
        | JString s =>
            let base64 :=
              BitstringService.padLoop
                (replaceAll "_" "/" (replaceAll "-" "+" s)) in
            match atob base64 with
            | inr binaryString =>
                inr (BitstringService.bytesOfBinaryString binaryString)
            | inl atobError =>
                inl (ThrownError
                       ("Base64 decoding failed: "
                        ++ messageOr "Unknown error" atobError))
            end
        | _ => inl (noMethod "encodedList" "replace" encodedList)
        end
    end in
  if BitstringService.hasGzipMagic compressed then
    match inflate compressed with
    | inr decompressed => inr decompressed
    | inl gzipError => inl gzipError
    end
  else
    match inflateRaw compressed with
    | inr decompressed => inr decompressed
    | inl deflateError =>
        match BitstringService.newUint8Array compressed with
        | inr decompressed => inr decompressed
        | inl rawError =>
            inl (ThrownError
                   ("All decompression methods failed. Deflate: "
                    ++ thrownToString deflateError ++ ", Raw: "
                    ++ thrownToString rawError))
        end
    end.

(** The [catch] block logs [encodedList.substring(0, 100)] before it
    throws the wrapped error; on an [encodedList] that is not a string the
    logging call is what throws. *)
Definition decodeStatusList (encodedList : JSValue) : Completion Uint8Array :=
  match decodeStatusList_try encodedList with
  | inr decompressed => inr decompressed
  | inl error =>
      match encodedList with
      | JString _ =>
          inl (ThrownError
                 ("Failed to decode status list: "
                  ++ messageOr "Unknown error" error))
      | _ => inl (noMethod "encodedList" "substring" encodedList)
      end
  end.

(** The body of the [try] of [decodeEnvelopedCredential]. *)
Definition decodeEnvelopedCredential_try (envelopedCred : JSValue)
  : Completion JSValue :=
  do* id := getProp envelopedCred "id" in
  do* jwtToken :=
    match id with
    | JString s => inr (removeFirst "data:application/vc-ld+jwt," s)
    | _ => inl (noMethod "envelopedCred.id" "replace" id)
    end in
  let parts := split "." jwtToken in
  if negb (Z.of_nat (List.length parts) =? 3) then
    inl (ThrownError
           ("Invalid JWT format: expected 3 parts, got "
            ++ numberToString (Z.of_nat (List.length parts))))
  else
    let payload := nth 1 parts EmptyString in
    let paddedPayload :=
      payload
      ++ repeat "=" (Z.to_nat (rem (4 - rem (strlen payload) 4) 4)) in
    do* decodedPayload :=
      atob (replaceAll "_" "/" (replaceAll "-" "+" paddedPayload)) in
    JSON_parse decodedPayload.

Definition decodeEnvelopedCredential (envelopedCred : JSValue)
  : Completion JSValue :=
  match decodeEnvelopedCredential_try envelopedCred with
  | inr credentialData => inr credentialData
  | inl error =>
      inl (ThrownError
             ("Failed to decode enveloped credential: "
              ++ messageOr "Unknown error" error))
  end.

(** The body of the [try] of [fetchStatusList]. *)
Definition fetchStatusList_try (url : string)
  : Completion BitstringService.DecodedStatusList :=
  do* response := fetch url in
  if negb (Http.ok response) then
    inl (ThrownError
           ("Failed to fetch status list: "
            ++ numberToString (Http.status response) ++ " "
            ++ Http.statusText response))
  else
    do* credential := Http.json response in
    do* type := getProp credential "type" in
    let isEnveloped := strictEqString type "EnvelopedVerifiableCredential" in
    do* unwrapped :=
      if isEnveloped then
        do* statusListCredential := decodeEnvelopedCredential credential in
        inr (statusListCredential, BitstringService.enveloped)
      else inr (credential, BitstringService.embedded) in
    let (statusListCredential, credentialType) := unwrapped in
    do* bitstringList := getProp statusListCredential "credentialSubject" in
    do* valid :=
      if negb (truthy bitstringList) then inr false
      else
        do* subjectType := getProp bitstringList "type" in
        inr (strictEqString subjectType "BitstringStatusList") in
    if negb valid then
      inl (ThrownError
             "Invalid credential: missing or invalid BitstringStatusList")
    else
      do* encodedList := getProp bitstringList "encodedList" in
      do* decodedBits := decodeStatusList encodedList in
      inr (BitstringService.mkDecoded statusListCredential bitstringList
             decodedBits (lengthOf decodedBits * 8) credentialType
             (if isEnveloped then Some credential else None)).

(** [{ success: false, error }] carries a message string in this
    revision. *)
Definition fetchStatusList (url : string)
  : string + BitstringService.DecodedStatusList :=
  match fetchStatusList_try url with
  | inr result => inr result
  | inl error => inl (messageOr "Unknown error occurred" error)
  end.

End WithRuntime.

End ThrowingDecoder.

(** ** [formatCredentialInfo] (the same in both revisions) *)

Module Info.
Import JS.

Record CredentialInfo : Type := mkInfo {
  credentialType : BitstringService.CredentialType;
  id : JSValue;
  statusPurpose : JSValue;
  totalBits : Z;
  validFrom : JSValue;
  validUntil : JSValue;
  issuer : JSValue
}.

(** The object literal reads its properties from top to bottom; reading
    one off [undefined] or [null] throws. *)
Definition formatCredentialInfo (decoded : BitstringService.DecodedStatusList)
  : Completion CredentialInfo :=
  let credential := BitstringService.credential decoded in
  let bitstringList := BitstringService.bitstringList decoded in
  let credentialType := BitstringService.credentialType decoded in
  ThrowingDecoder.andThen (getProp bitstringList "id") (fun id =>
  ThrowingDecoder.andThen (getProp bitstringList "statusPurpose")
    (fun statusPurpose =>
  ThrowingDecoder.andThen (getProp bitstringList "validFrom")
    (fun validFrom =>
  ThrowingDecoder.andThen (getProp bitstringList "validUntil")
    (fun validUntil =>
  ThrowingDecoder.andThen (getProp credential "issuer") (fun issuer =>
  inr (mkInfo credentialType id statusPurpose
         (BitstringService.totalBits decoded) validFrom validUntil
         issuer)))))).

End Info.

(** ** The page ([app/page.tsx]): fetching on behalf of the user

    The component state is passed explicitly; each [setX(v)] replaces one
    field. *)

Module Page.

Record State : Type := mkState {
  loading : bool;
  decoded : option BitstringService.DecodedStatusList;
  error : option DetailedError;
  currentUrl : string;
  autoCheckResult : option (Z * bool)
}.

(** The object [fetchStatusList] resolves to, as the handler reads it:
    [success], [data], [error] and [urlBitIndex], the last three possibly
    [undefined].  The page reads [urlBitIndex], which the revisions of the
    service among the sources do not set; the handler below therefore takes
    the call to the service as a parameter. *)
Record FetchResult : Type := mkResult {
  success : bool;
  data : option BitstringService.DecodedStatusList;
  resultError : option DetailedError;
  urlBitIndex : option Z
}.

Definition setLoading (v : bool) (st : State) : State :=
  mkState v (decoded st) (error st) (currentUrl st) (autoCheckResult st).
Definition setDecoded (v : option BitstringService.DecodedStatusList)
  (st : State) : State :=
  mkState (loading st) v (error st) (currentUrl st) (autoCheckResult st).
Definition setError (v : option DetailedError) (st : State) : State :=
  mkState (loading st) (decoded st) v (currentUrl st) (autoCheckResult st).
Definition setCurrentUrl (v : string) (st : State) : State :=
  mkState (loading st) (decoded st) (error st) v (autoCheckResult st).
Definition setAutoCheckResult (v : option (Z * bool)) (st : State) : State :=
  mkState (loading st) (decoded st) (error st) (currentUrl st) v.

(** The [try] block of [handleFetchStatusList], from the resolved result
    on. *)
Definition applyResult (result : FetchResult) (st : State) : State :=
  match success result, data result with
  | true, Some d =>
      let st := setDecoded (Some d) st in
      match urlBitIndex result with
      | Some i =>
          match BitstringService.getBitStatus
                  (BitstringService.decodedBits d) i with
          | inr bitStatus => setAutoCheckResult (Some (i, bitStatus)) st
          | inl _ => st
          end
      | None => st
      end
  | _, _ =>
      setError
        (Some match resultError result with
              | Some e => e
              | None =>
                  createError UNKNOWN_ERROR
                    "Failed to fetch and decode status list"
                    (Some "An unexpected error occurred.") None None
              end) st
  end.

(** The [catch] block of [handleFetchStatusList]. *)
Definition unexpected (err : JS.Thrown) : DetailedError :=
  createError UNKNOWN_ERROR
    "An unexpected error occurred"
    (Some (JS.messageOr "Unknown error" err))
    None
    (Some "Please try again or check the browser console for more details.").

(** [handleFetchStatusList(url)].  [fetchStatusList] is the call to the
    service: it resolves to a result or rejects with what was thrown.  The
    bit accessor is the one that returns a boolean or an error value, which
    is what the handler tells apart with [typeof]. *)
Definition handleFetchStatusList
  (fetchStatusList : string -> JS.Completion FetchResult)
  (url : string) (st : State) : State :=
  let st := setLoading true st in
  let st := setError None st in
  let st := setDecoded None st in
  let st := setCurrentUrl url st in
  let st := setAutoCheckResult None st in
  let st :=
    match fetchStatusList url with
    | inr result => applyResult result st
    | inl err => setError (Some (unexpected err)) st
    end in
  setLoading false st.

End Page.

(** ** The bit viewer ([components/BitViewer.tsx]) *)

Module Viewer.

Inductive Mode : Type := single | range.

(** The [result] state of the component; [data] is a boolean or a list of
    entries. *)
Record Result : Type := mkResult {
  type : Mode;
  data : bool + list BitStatus;
  index : option Z;
  error : option DetailedError
}.

Section WithParser.
(** [parseInt(s)]: an integer, or [NaN] ([None]).  An overflow to
    [Infinity] behaves like an integer past the end of every list. *)
Variable parseInt : string -> option Z.

Definition handleSingleBitCheck (decoded : BitstringService.DecodedStatusList)
  (singleIndex : string) : Result :=
  match parseInt singleIndex with
  | None =>
      mkResult single (inl false) None
        (Some (createError INVALID_BIT_INDEX "Invalid input"
                 (Some "Please enter a valid number for the bit index.")
                 None None))
  | Some index =>
      match BitstringService.getBitStatus
              (BitstringService.decodedBits decoded) index with
      | inr status => mkResult single (inl status) (Some index) None
      | inl status => mkResult single (inl false) None (Some status)
      end
  end.

Definition handleRangeCheck (decoded : BitstringService.DecodedStatusList)
  (startIndex endIndex : string) : Result :=
  match parseInt startIndex, parseInt endIndex with
  | Some start, Some end_ =>
      match BitstringService.getBitRange
              (BitstringService.decodedBits decoded) start end_ with
      | inr statuses => mkResult range (inr statuses) None None
      | inl statuses => mkResult range (inr []) None (Some statuses)
      end
  | _, _ =>
      mkResult range (inr []) None
        (Some (createError INVALID_BIT_RANGE "Invalid input"
                 (Some "Please enter valid numbers for both start and end indices.")
                 None None))
  end.

End WithParser.

End Viewer.

(** ** A fixed platform for worked examples

    An issuer that serves one embedded-proof credential with purpose
    [suspension].  Its encoded list [B4A] is the Base64URL form of the two
    bytes [07 80]; read as raw DEFLATE the first byte announces the reserved
    block type, which pako rejects by throwing a string. *)

Module Sample.
Import JS.

Definition subject : JSValue :=
  JObject [ ("id", JString "https://issuer.example/status/1#list");
            ("type", JString "BitstringStatusList");
            ("statusPurpose", JString "suspension");
            ("encodedList", JString "B4A") ].

Definition document : JSValue :=
  JObject [ ("id", JString "https://issuer.example/status/1");
            ("type", JArray [ JString "VerifiableCredential";
                              JString "BitstringStatusListCredential" ]);
            ("issuer", JString "https://issuer.example");
            ("credentialSubject", subject) ].

Definition runtime : Runtime := {|
  fetch := fun _ => inr (Http.mkResponse true 200 "OK" (inr document));
  base64url_toBuffer := fun v =>
    match v with
    | JString s =>
        if String.eqb s "B4A" then inr [Byte.x07; Byte.x80]
        else inl (ThrownTypeError "Invalid character")
    | _ => inl (ThrownTypeError "The first argument must be of type string")
    end;
  atob := fun s =>
    if String.eqb s "e30=" then inr "{}"
    else inl (ThrownError "Invalid character");
  inflate := fun _ => inl ThrownOther;
  inflateRaw := fun _ => inl ThrownOther;
  JSON_parse := fun s =>
    if String.eqb s "{}" then inr (JObject [])
    else inl (ThrownError "Unexpected token")
|}.

(** The same issuer's enveloped form; the payload [e30] is the Base64URL
    form of the JSON text of an empty object. *)
Definition envelopedId : string := "data:application/vc-ld+jwt,e30.e30.sig".

Definition enveloped : JSValue :=
  JObject [ ("type", JString "EnvelopedVerifiableCredential");
            ("id", JString envelopedId) ].

(** A credential whose subject is of another type (the scenario of the
    specification). *)
Definition otherSubject : JSValue :=
  JObject [ ("type", JString "SomethingElse") ].

Definition otherDocument : JSValue :=
  JObject [ ("type", JArray [ JString "VerifiableCredential" ]);
            ("credentialSubject", otherSubject) ].

Definition decoded : BitstringService.DecodedStatusList :=
  BitstringService.mkDecoded document subject [Byte.x07; Byte.x80] 16
    BitstringService.embedded None.

End Sample.

(** ** The bit the specification names

    [(B[i/8] >> (i%8)) & 1 != 0], with the shift and the mask read as
    operations on the unsigned byte value. *)
Definition byteOf (B : Uint8Array) (k : Z) : Z :=
  nth (Z.to_nat k) (map byteValue B) 0.

Definition specBit (B : Uint8Array) (i : Z) : bool :=
  negb (Z.land (Z.shiftr (byteOf B (i / 8)) (i mod 8)) 1 =? 0).

(** The indices [start, start + 1, ..., start + n - 1]. *)
Definition indicesFrom (start : Z) (n : nat) : list Z :=
  map (fun k => start + Z.of_nat k) (seq 0 n).

(** The entry the loop pushes for index [k]. *)
Definition entryAt (B : Uint8Array) (k : Z) : BitStatus :=
  mkBitStatus k (specBit B k) "revocation".

(** The number of times a character occurs in a string. *)
Fixpoint occurrences (c : ascii) (s : string) : nat :=
  match s with
  | EmptyString => O
  | String x s' => (if Ascii.eqb x c then 1 else 0) + occurrences c s'
  end.

(** ** More worked inputs *)

Module Cases.
Import JS.

(** A platform whose issuer serves a GZIP-framed list that is cut short:
    [H4sA] is the Base64URL form of the bytes [1f 8b 00]. *)
Definition truncatedGzip : Runtime := {|
  fetch := fun _ => inl (ThrownTypeError "Failed to fetch");
  base64url_toBuffer := fun v =>
    match v with
    | JString s =>
        if String.eqb s "H4sA" then inr [Byte.x1f; Byte.x8b; Byte.x00]
        else inl (ThrownTypeError "Invalid character")
    | _ => inl (ThrownTypeError "The first argument must be of type string")
    end;
  atob := fun _ => inl (ThrownError "Invalid character");
  inflate := fun _ => inl ThrownOther;
  inflateRaw := fun _ => inl ThrownOther;
  JSON_parse := fun _ => inl (ThrownError "Unexpected token")
|}.

(** A platform whose server answers 503. *)
Definition unavailable : Runtime := {|
  fetch := fun _ =>
    inr (Http.mkResponse false 503 "Service Unavailable"
           (inl (ThrownError "Unexpected end of JSON input")));
  base64url_toBuffer := fun _ => inl (ThrownTypeError "Invalid character");
  atob := fun _ => inl (ThrownError "Invalid character");
  inflate := fun _ => inl ThrownOther;
  inflateRaw := fun _ => inl ThrownOther;
  JSON_parse := fun _ => inl (ThrownError "Unexpected token")
|}.

(** A platform that serves a given document. *)
Definition serving (document : JSValue) : Runtime := {|
  fetch := fun _ => inr (Http.mkResponse true 200 "OK" (inr document));
  base64url_toBuffer := base64url_toBuffer (Runtime := Sample.runtime);
  atob := atob (Runtime := Sample.runtime);
  inflate := inflate (Runtime := Sample.runtime);
  inflateRaw := inflateRaw (Runtime := Sample.runtime);
  JSON_parse := JSON_parse (Runtime := Sample.runtime)
|}.

(** An enveloped credential with a real payload: the second segment of
    the token is the Base64URL form of [payloadText]. *)
Definition quoted (s : string) : string := dquote ++ s ++ dquote.

Definition payloadText : string :=
  "{" ++ quoted "credentialSubject" ++ ":{"
  ++ quoted "type" ++ ":" ++ quoted "BitstringStatusList" ++ ","
  ++ quoted "statusPurpose" ++ ":" ++ quoted "suspension" ++ ","
  ++ quoted "encodedList" ++ ":" ++ quoted "B4A" ++ "}}".

Definition payloadSegment : string :=
  "eyJjcmVkZW50aWFsU3ViamVjdCI6eyJ0eXBlIjoiQml0c3RyaW5nU3RhdHVzTGlzdCIsInN0YXR1c1B1cnBvc2UiOiJzdXNwZW5zaW9uIiwiZW5jb2RlZExpc3QiOiJCNEEifX0".

Definition unwrappedSubject : JSValue :=
  JObject [ ("type", JString "BitstringStatusList");
            ("statusPurpose", JString "suspension");
            ("encodedList", JString "B4A") ].

Definition unwrapped : JSValue :=
  JObject [ ("credentialSubject", unwrappedSubject) ].

Definition wrapperId : string :=
  "data:application/vc+jwt,eyJhbGciOiJFUzI1NiJ9."
  ++ payloadSegment ++ ".c2ln".

Definition wrapper : JSValue :=
  JObject [ ("type", JString "EnvelopedVerifiableCredential");
            ("id", JString wrapperId) ].

Definition enveloping : Runtime := {|
  fetch := fun _ => inr (Http.mkResponse true 200 "OK" (inr wrapper));
  base64url_toBuffer := base64url_toBuffer (Runtime := Sample.runtime);
  atob := fun s =>
    if String.eqb s (payloadSegment ++ "=") then inr payloadText
    else inl (ThrownError "Invalid character");
  inflate := fun _ => inl ThrownOther;
  inflateRaw := fun _ => inl ThrownOther;
  JSON_parse := fun s =>
    if String.eqb s payloadText then inr unwrapped
    else inl (ThrownError "Unexpected token")
|}.

Definition envelopedResult : BitstringService.DecodedStatusList :=
  BitstringService.mkDecoded unwrapped unwrappedSubject
    [Byte.x07; Byte.x80] 16 BitstringService.enveloped (Some wrapper).

(** A service, as the page calls it, that resolves to the sample list and
    names the bit index found in the URL, and one whose call rejects. *)
Definition resolving (urlBitIndex : option Z)
  : string -> Completion Page.FetchResult :=
  fun _ => inr (Page.mkResult true (Some Sample.decoded) None urlBitIndex).

Definition rejecting : string -> Completion Page.FetchResult :=
  fun _ => inl (ThrownTypeError "Failed to fetch").

Definition blank : Page.State :=
  Page.mkState false None None EmptyString None.

End Cases.

(** * Properties *)

(** ** Bytes and bits *)

Lemma byteValue_range (b : Byte.byte) : 0 <= byteValue b < 256.
Proof.
  unfold byteValue. pose proof (Byte.to_N_bounded b). lia.
Qed.

Lemma byteValue_inj (a b : Byte.byte) : byteValue a = byteValue b -> a = b.
Proof.
  unfold byteValue. intro H. apply N2Z.inj in H.
  pose proof (Byte.of_to_N a) as Ha. rewrite H, Byte.of_to_N in Ha.
  congruence.
Qed.

Lemma at_in_range (B : Uint8Array) (k : Z) :
  0 <= k < lengthOf B -> at_ B k = Some (byteOf B k).
Proof.
  unfold at_, byteOf, lengthOf. intros Hk.
  destruct (Z.ltb_spec k 0); [lia|].
  rewrite <- nth_error_map.
  rewrite (nth_error_nth' (map byteValue B) 0)
    by (rewrite length_map; lia).
  reflexivity.
Qed.

Lemma at_out_of_range (B : Uint8Array) (k : Z) :
  k < 0 \/ lengthOf B <= k -> at_ B k = None.
Proof.
  unfold at_, lengthOf. intros Hk.
  destruct (Z.ltb_spec k 0); [reflexivity|].
  replace (nth_error B (Z.to_nat k)) with (@None Byte.byte);
    [reflexivity|].
  symmetry. apply nth_error_None. lia.
Qed.

Lemma byteOf_range (B : Uint8Array) (k : Z) : 0 <= byteOf B k < 256.
Proof.
  unfold byteOf.
  destruct (Nat.lt_ge_cases (Z.to_nat k) (List.length (map byteValue B)))
    as [Hlt|Hge].
  - rewrite length_map in Hlt.
    rewrite (nth_indep _ 0 (byteValue Byte.x00))
      by (rewrite length_map; exact Hlt).
    rewrite map_nth. apply byteValue_range.
  - rewrite nth_overflow by exact Hge. lia.
Qed.

Lemma ToInt32_small (z : Z) : 0 <= z < 2 ^ 31 -> JS.ToInt32 z = z.
Proof.
  intros Hz. unfold JS.ToInt32.
  rewrite Z.mod_small by lia.
  destruct (Z.geb_spec z (2 ^ 31)); [lia | reflexivity].
Qed.

(** [1 << k] is the k-th power of two for the bit positions of a byte. *)
Lemma shl_one (k : Z) : 0 <= k < 8 -> JS.shl 1 k = 2 ^ k.
Proof.
  intros Hk.
  assert (Hcases : k = 0 \/ k = 1 \/ k = 2 \/ k = 3 \/ k = 4 \/ k = 5
                   \/ k = 6 \/ k = 7) by lia.
  repeat (destruct Hcases as [-> | Hcases]; [reflexivity|]).
  subst k. reflexivity.
Qed.

Lemma land_pow2 (v k : Z) :
  0 <= k -> Z.land v (2 ^ k) = if Z.testbit v k then 2 ^ k else 0.
Proof.
  intros Hk. apply Z.bits_inj'. intros n Hn.
  rewrite Z.land_spec, Z.pow2_bits_eqb by exact Hk.
  destruct (Z.eqb_spec k n) as [->|Hne].
  - destruct (Z.testbit v n); cbn.
    + rewrite Z.pow2_bits_true by exact Hn. reflexivity.
    + rewrite Z.bits_0. reflexivity.
  - rewrite andb_false_r.
    destruct (Z.testbit v k).
    + rewrite Z.pow2_bits_false by congruence. reflexivity.
    + rewrite Z.bits_0. reflexivity.
Qed.

(** The service's mask test reads bit [k] of the byte. *)
Lemma and_mask_testbit (v k : Z) :
  0 <= v < 256 -> 0 <= k < 8 ->
  negb (JS.and (Some v) (JS.shl 1 k) =? 0) = Z.testbit v k.
Proof.
  intros Hv Hk. rewrite shl_one by exact Hk.
  assert (Hp : 0 < 2 ^ k <= 2 ^ 7).
  { split; [apply Z.pow_pos_nonneg; lia|].
    apply Z.pow_le_mono_r; lia. }
  unfold JS.and, JS.ToInt32u.
  rewrite !ToInt32_small by lia.
  rewrite land_pow2 by lia.
  destruct (Z.testbit v k); cbn [negb].
  - destruct (Z.eqb_spec (2 ^ k) 0); [lia | reflexivity].
  - reflexivity.
Qed.

(** The specification's shift-and-mask reads the same bit. *)
Lemma shiftr_mask_testbit (v k : Z) :
  0 <= k -> negb (Z.land (Z.shiftr v k) 1 =? 0) = Z.testbit v k.
Proof.
  intros Hk.
  change 1 with (Z.ones 1). rewrite Z.land_ones by lia.
  rewrite Z.shiftr_div_pow2 by exact Hk.
  change (2 ^ 1) with 2. rewrite <- Z.testbit_spec' by exact Hk.
  destruct (Z.testbit v k); reflexivity.
Qed.

Lemma index_split (i len : Z) :
  0 <= i <= 8 * len - 1 ->
  0 <= JS.floorDiv8 i < len /\ JS.rem i 8 = i mod 8 /\ 0 <= i mod 8 < 8.
Proof.
  intros Hi. unfold JS.floorDiv8, JS.rem.
  rewrite Z.rem_mod_nonneg by lia.
  pose proof (Z.mod_pos_bound i 8 ltac:(lia)).
  pose proof (Z.div_mod i 8 ltac:(lia)).
  repeat split; try lia.
Qed.

(** Both revisions compute this expression once the index is known to be
    in range. *)
Lemma mask_test_in_range (B : Uint8Array) (i : Z) :
  0 <= i <= 8 * lengthOf B - 1 ->
  negb (JS.and (at_ B (JS.floorDiv8 i)) (JS.shl 1 (JS.rem i 8)) =? 0)
  = specBit B i.
Proof.
  intros Hi. destruct (index_split i (lengthOf B) Hi) as (Hq & Hr & Hm).
  rewrite at_in_range by exact Hq. rewrite Hr.
  rewrite and_mask_testbit by (auto using byteOf_range).
  unfold specBit, JS.floorDiv8.
  rewrite shiftr_mask_testbit by lia. reflexivity.
Qed.

(** ** Strings *)

Lemma prefix_app (t b : string) : String.prefix t (t ++ b) = true.
Proof.
  induction t as [|c t IH]; cbn; [destruct b; reflexivity|].
  destruct (ascii_dec c c); [exact IH | congruence].
Qed.

Lemma includes_app (a t b : string) : JS.includes (a ++ t ++ b) t = true.
Proof.
  induction a as [|c a IH]; cbn [append].
  - destruct (t ++ b) eqn:E; cbn [JS.includes];
      rewrite <- E, prefix_app; reflexivity.
  - cbn [JS.includes]. rewrite IH. apply orb_true_r.
Qed.

Lemma includes_skip (a s t : string) :
  JS.includes s t = true -> JS.includes (a ++ s) t = true.
Proof.
  intros Hs. induction a as [|c a IH]; cbn [append]; [exact Hs|].
  cbn [JS.includes]. rewrite IH. apply orb_true_r.
Qed.

(** ** Single-bit queries *)

Lemma getBitStatus_specBit (B : Uint8Array) (i : Z) :
  0 <= i <= 8 * lengthOf B - 1 ->
  BitstringService.getBitStatus B i = inr (specBit B i).
Proof.
  intros Hi. destruct (index_split i (lengthOf B) Hi) as (Hq & Hr & Hm).
  unfold BitstringService.getBitStatus.
  destruct (Z.ltb_spec i 0); [lia|].
  destruct (Z.geb_spec (JS.floorDiv8 i) (lengthOf B)); [lia|].
  cbv zeta. rewrite mask_test_in_range by exact Hi. reflexivity.
Qed.

(** C1.  For an index inside [0, 8*len(B) - 1] the query returns the
    boolean [(B[floor(i/8)] >> (i mod 8)) & 1 != 0]; that boolean is bit
    [i mod 8] of the byte counted from the least-significant end. *)
Theorem getBitStatus_in_range (B : Uint8Array) (i : Z) :
  0 <= i <= 8 * lengthOf B - 1 ->
  BitstringService.getBitStatus B i = inr (specBit B i)
  /\ specBit B i = Z.testbit (byteOf B (i / 8)) (i mod 8).
Proof.
  intros Hi. split; [apply getBitStatus_specBit, Hi|].
  unfold specBit. apply shiftr_mask_testbit.
  pose proof (Z.mod_pos_bound i 8 ltac:(lia)). lia.
Qed.

Lemma getBitStatus_in_range_witness :
  BitstringService.getBitStatus [Byte.x05; Byte.x80] 15
  = inr (specBit [Byte.x05; Byte.x80] 15)
  /\ specBit [Byte.x05; Byte.x80] 15
     = Z.testbit (byteOf [Byte.x05; Byte.x80] (15 / 8)) (15 mod 8).
Proof.
  apply (getBitStatus_in_range [Byte.x05; Byte.x80] 15).
  vm_compute. split; discriminate.
Defined.

(** An index at or past [8*len(B)] lands on a byte that is not there. *)
Lemma floorDiv8_high (i len : Z) : 8 * len <= i -> len <= JS.floorDiv8 i.
Proof.
  intros Hi. unfold JS.floorDiv8.
  apply Z.div_le_lower_bound; lia.
Qed.

(** C3, as far as the code goes.  An index below 0 or at or past
    [8*len(B)] yields a [DetailedError] with code [INVALID_BIT_INDEX], never
    a boolean.  On the high side the [message] field is the fixed title
    [Bit index out of range]; the maximum valid index [8*len(B) - 1] is
    stated by the [details] and [suggestion] fields. *)
Theorem getBitStatus_out_of_range (B : Uint8Array) (i : Z) :
  i < 0 \/ 8 * lengthOf B <= i ->
  exists e,
    BitstringService.getBitStatus B i = inl e
    /\ code e = INVALID_BIT_INDEX
    /\ (8 * lengthOf B <= i ->
        message e = "Bit index out of range"
        /\ details e
           = Some ("Index " ++ JS.numberToString i
                   ++ " exceeds the maximum index "
                   ++ JS.numberToString (8 * lengthOf B - 1) ++ ".")
        /\ suggestion e
           = Some ("Valid range is 0 to "
                   ++ JS.numberToString (8 * lengthOf B - 1) ++ ".")
        /\ (forall d, details e = Some d ->
              JS.includes d (JS.numberToString (8 * lengthOf B - 1)) = true)
        /\ (forall s, suggestion e = Some s ->
              JS.includes s (JS.numberToString (8 * lengthOf B - 1)) = true)).
Proof.
  intros Hi. unfold BitstringService.getBitStatus.
  assert (Hlen : 0 <= lengthOf B) by (unfold lengthOf; lia).
  destruct (Z.ltb_spec i 0) as [Hneg|Hnonneg].
  - eexists. split; [reflexivity|]. split; [reflexivity|]. lia.
  - assert (Hhigh : 8 * lengthOf B <= i) by lia.
    pose proof (floorDiv8_high i (lengthOf B) Hhigh) as Hq.
    cbv zeta.
    destruct (Z.geb_spec (JS.floorDiv8 i) (lengthOf B)); [|lia].
    replace (lengthOf B * 8 - 1) with (8 * lengthOf B - 1) by lia.
    set (shown := JS.numberToString (8 * lengthOf B - 1)).
    assert (Hd : JS.includes
                   ("Index " ++ JS.numberToString i
                    ++ " exceeds the maximum index " ++ shown ++ ".")
                   shown = true)
      by apply includes_skip, includes_skip, includes_skip,
               (includes_app EmptyString).
    assert (Hs : JS.includes ("Valid range is 0 to " ++ shown ++ ".")
                   shown = true)
      by apply includes_skip, (includes_app EmptyString).
    eexists. split; [reflexivity|]. split; [reflexivity|].
    intros _. cbn [message details suggestion].
    repeat split.
    + intros d Heq. injection Heq as <-. exact Hd.
    + intros s Heq. injection Heq as <-. exact Hs.
Qed.

Lemma getBitStatus_out_of_range_witness :
  exists e,
    BitstringService.getBitStatus [Byte.x00] 8 = inl e
    /\ code e = INVALID_BIT_INDEX
    /\ (8 * lengthOf [Byte.x00] <= 8 ->
        message e = "Bit index out of range"
        /\ details e = Some "Index 8 exceeds the maximum index 7."
        /\ suggestion e = Some "Valid range is 0 to 7."
        /\ (forall d, details e = Some d -> JS.includes d "7" = true)
        /\ (forall s, suggestion e = Some s -> JS.includes s "7" = true)).
Proof.
  apply (getBitStatus_out_of_range [Byte.x00] 8).
  right. vm_compute. discriminate.
Defined.

(** C3 as the specification words it fails: the [message] field of the
    error returned for index 8 on a one-byte array does not mention the
    maximum valid index 7. *)
Lemma getBitStatus_message_lacks_max :
  ~ (exists e,
       BitstringService.getBitStatus [Byte.x00] 8 = inl e
       /\ code e = INVALID_BIT_INDEX
       /\ JS.includes (message e)
            (JS.numberToString (8 * lengthOf [Byte.x00] - 1)) = true).
Proof.
  intros (e & He & _ & Hinc).
  vm_compute in He. injection He as <-.
  vm_compute in Hinc. discriminate.
Qed.

(** The throwing revision has no check for a negative index: it reads past
    the array and answers [false]. *)
Lemma throwing_getBitStatus_negative (B : Uint8Array) (i : Z) :
  i < 0 -> ThrowingService.getBitStatus B i = inr false.
Proof.
  intros Hi. unfold ThrowingService.getBitStatus.
  assert (Hq : JS.floorDiv8 i < 0).
  { unfold JS.floorDiv8. apply Z.div_lt_upper_bound; lia. }
  assert (Hlen : 0 <= lengthOf B) by (unfold lengthOf; lia).
  destruct (Z.geb_spec (JS.floorDiv8 i) (lengthOf B)); [lia|].
  cbv zeta. rewrite at_out_of_range by lia. reflexivity.
Qed.

(** C10.  On every index inside [0, 8*len(B) - 1] the throwing revision and
    the error-returning revision return the same boolean. *)
Theorem getBitStatus_revisions_agree (B : Uint8Array) (i : Z) :
  0 <= i <= 8 * lengthOf B - 1 ->
  exists b,
    ThrowingService.getBitStatus B i = inr b
    /\ BitstringService.getBitStatus B i = inr b.
Proof.
  intros Hi. exists (specBit B i).
  destruct (index_split i (lengthOf B) Hi) as (Hq & _ & _).
  unfold ThrowingService.getBitStatus, BitstringService.getBitStatus.
  destruct (Z.ltb_spec i 0); [lia|].
  destruct (Z.geb_spec (JS.floorDiv8 i) (lengthOf B)); [lia|].
  cbv zeta. rewrite mask_test_in_range by exact Hi. split; reflexivity.
Qed.

Lemma getBitStatus_revisions_agree_witness :
  exists b,
    ThrowingService.getBitStatus [Byte.x05; Byte.x80] 2 = inr b
    /\ BitstringService.getBitStatus [Byte.x05; Byte.x80] 2 = inr b.
Proof.
  apply (getBitStatus_revisions_agree [Byte.x05; Byte.x80] 2).
  vm_compute. split; discriminate.
Defined.

(** ** Range queries *)

Lemma indicesFrom_S (start : Z) (n : nat) :
  indicesFrom start (S n) = start :: indicesFrom (start + 1) n.
Proof.
  unfold indicesFrom. cbn [seq map]. f_equal; [lia|].
  rewrite <- seq_shift, map_map.
  apply map_ext. intros k. lia.
Qed.

Lemma indicesFrom_length (start : Z) (n : nat) :
  List.length (indicesFrom start n) = n.
Proof. unfold indicesFrom. now rewrite length_map, length_seq. Qed.

Lemma indicesFrom_bounds (start : Z) (n : nat) (k : Z) :
  In k (indicesFrom start n) -> start <= k < start + Z.of_nat n.
Proof.
  unfold indicesFrom. rewrite in_map_iff. intros (j & <- & Hj).
  apply in_seq in Hj. lia.
Qed.

Lemma getBitRange_loop_exit (B : Uint8Array) (e i : Z) (acc : list BitStatus) :
  e < i -> BitstringService.getBitRange_loop B e i acc = acc.
Proof.
  intros Hi. rewrite BitstringService.getBitRange_loop_equation_1.
  destruct (Z_le_gt_dec i e); [lia | reflexivity].
Qed.

Lemma getBitRange_loop_step (B : Uint8Array) (e i : Z) (acc : list BitStatus)
  (b : bool) :
  i <= e -> BitstringService.getBitStatus B i = inr b ->
  BitstringService.getBitRange_loop B e i acc
  = BitstringService.getBitRange_loop B e (i + 1)
      (acc ++ [mkBitStatus i b "revocation"]).
Proof.
  intros Hi Hb.
  rewrite (BitstringService.getBitRange_loop_equation_1 B e i acc).
  destruct (Z_le_gt_dec i e); [|lia].
  cbn. rewrite Hb. reflexivity.
Qed.

(** Inside the array the loop visits [i, i + 1, ..., e] in this order and
    appends one entry for each. *)
Lemma getBitRange_loop_in_range (B : Uint8Array) (e : Z) :
  e <= 8 * lengthOf B - 1 ->
  forall (n : nat) (i : Z) (acc : list BitStatus),
    0 <= i -> Z.of_nat n = e + 1 - i ->
    BitstringService.getBitRange_loop B e i acc
    = (acc ++ map (entryAt B) (indicesFrom i n))%list.
Proof.
  intros He. induction n as [|n IH]; intros i acc Hi Hn.
  - rewrite getBitRange_loop_exit by lia.
    cbn. now rewrite app_nil_r.
  - pose proof (getBitStatus_specBit B i ltac:(lia)) as Hb.
    rewrite (getBitRange_loop_step B e i acc _ ltac:(lia) Hb).
    rewrite IH by lia.
    rewrite indicesFrom_S. cbn [map].
    rewrite <- app_assoc. reflexivity.
Qed.

(** C2.  For [0 <= start <= end <= 8*len(B) - 1] with at most 10000
    indices, the range query returns exactly [end - start + 1] entries, their
    indices are [start, start + 1, ..., end] in this order, and the status
    of each entry is the boolean the single-bit query returns at its
    index. *)
Theorem getBitRange_in_range (B : Uint8Array) (startIndex endIndex : Z) :
  0 <= startIndex -> startIndex <= endIndex ->
  endIndex <= 8 * lengthOf B - 1 ->
  endIndex - startIndex + 1 <= 10000 ->
  exists entries,
    BitstringService.getBitRange B startIndex endIndex = inr entries
    /\ Z.of_nat (List.length entries) = endIndex - startIndex + 1
    /\ map index entries
       = indicesFrom startIndex (Z.to_nat (endIndex - startIndex + 1))
    /\ Forall (fun entry =>
                 BitstringService.getBitStatus B (index entry)
                 = inr (status entry)) entries.
Proof.
  intros Hs Hse He Hsize.
  set (n := Z.to_nat (endIndex - startIndex + 1)).
  exists (map (entryAt B) (indicesFrom startIndex n)).
  repeat split.
  - unfold BitstringService.getBitRange.
    destruct (Z.ltb_spec startIndex 0); [lia|].
    destruct (Z.ltb_spec endIndex startIndex); [lia|].
    cbv zeta.
    destruct (Z.gtb_spec startIndex (lengthOf B * 8 - 1)); [lia|].
    destruct (Z.gtb_spec endIndex (lengthOf B * 8 - 1)); [lia|].
    destruct (Z.gtb_spec (endIndex - startIndex + 1) 10000); [lia|].
    rewrite (getBitRange_loop_in_range B endIndex He n startIndex [])
      by (subst n; lia).
    reflexivity.
  - rewrite length_map, indicesFrom_length. subst n. lia.
  - rewrite map_map. cbn [entryAt index]. apply map_id.
  - apply Forall_forall. intros entry Hin.
    apply in_map_iff in Hin. destruct Hin as (k & <- & Hk).
    apply indicesFrom_bounds in Hk. cbn [entryAt index status].
    apply getBitStatus_specBit. subst n. lia.
Qed.

Lemma getBitRange_in_range_witness :
  exists entries,
    BitstringService.getBitRange [Byte.x05; Byte.x80] 6 9 = inr entries
    /\ Z.of_nat (List.length entries) = 9 - 6 + 1
    /\ map index entries = indicesFrom 6 (Z.to_nat (9 - 6 + 1))
    /\ Forall (fun entry =>
                 BitstringService.getBitStatus [Byte.x05; Byte.x80]
                   (index entry)
                 = inr (status entry)) entries.
Proof.
  apply (getBitRange_in_range [Byte.x05; Byte.x80] 6 9);
    vm_compute; discriminate.
Defined.

(** C4.  A range with [end < start], a negative [start], a [start] or an
    [end] past [8*len(B) - 1], or more than 10000 indices is answered by a
    [DetailedError] with code [INVALID_BIT_RANGE] and by no list. *)
Theorem getBitRange_invalid (B : Uint8Array) (startIndex endIndex : Z) :
  endIndex < startIndex \/ startIndex < 0
  \/ startIndex > 8 * lengthOf B - 1 \/ endIndex > 8 * lengthOf B - 1
  \/ endIndex - startIndex + 1 > 10000 ->
  exists e,
    BitstringService.getBitRange B startIndex endIndex = inl e
    /\ code e = INVALID_BIT_RANGE.
Proof.
  intros Hbad. unfold BitstringService.getBitRange.
  destruct (Z.ltb_spec startIndex 0);
    [eexists; split; reflexivity|].
  destruct (Z.ltb_spec endIndex startIndex);
    [eexists; split; reflexivity|].
  cbv zeta.
  destruct (Z.gtb_spec startIndex (lengthOf B * 8 - 1));
    [eexists; split; reflexivity|].
  destruct (Z.gtb_spec endIndex (lengthOf B * 8 - 1));
    [eexists; split; reflexivity|].
  destruct (Z.gtb_spec (endIndex - startIndex + 1) 10000);
    [eexists; split; reflexivity|].
  lia.
Qed.

Lemma getBitRange_invalid_witness :
  exists e,
    BitstringService.getBitRange [Byte.x05; Byte.x80] 3 16 = inl e
    /\ code e = INVALID_BIT_RANGE.
Proof.
  apply (getBitRange_invalid [Byte.x05; Byte.x80] 3 16).
  right. right. right. left. vm_compute. reflexivity.
Defined.

(** The throwing revision runs the same loop with the same bounds checks
    but has no limit on the size of the range. *)
Lemma throwing_getBitStatus_specBit (B : Uint8Array) (i : Z) :
  0 <= i <= 8 * lengthOf B - 1 ->
  ThrowingService.getBitStatus B i = inr (specBit B i).
Proof.
  intros Hi. destruct (index_split i (lengthOf B) Hi) as (Hq & _ & _).
  unfold ThrowingService.getBitStatus.
  destruct (Z.geb_spec (JS.floorDiv8 i) (lengthOf B)); [lia|].
  cbv zeta. rewrite mask_test_in_range by exact Hi. reflexivity.
Qed.

Lemma throwing_getBitRange_loop_in_range (B : Uint8Array) (e : Z) :
  e <= 8 * lengthOf B - 1 ->
  forall (n : nat) (i : Z) (acc : list BitStatus),
    0 <= i -> Z.of_nat n = e + 1 - i ->
    ThrowingService.getBitRange_loop B e i acc
    = inr (acc ++ map (entryAt B) (indicesFrom i n))%list.
Proof.
  intros He. induction n as [|n IH]; intros i acc Hi Hn;
    rewrite (ThrowingService.getBitRange_loop_equation_1 B e i acc);
    destruct (Z_le_gt_dec i e); try lia;
    cbn [ThrowingService.getBitRange_loop_unfold_clause_1].
  - cbn. now rewrite app_nil_r.
  - rewrite (throwing_getBitStatus_specBit B i) by lia.
    cbn [ThrowingService.getBitRange_loop_unfold_clause_1_clause_1].
    rewrite IH by lia.
    rewrite indicesFrom_S. cbn [map].
    rewrite <- app_assoc. reflexivity.
Qed.

Lemma throwing_getBitRange_in_range (B : Uint8Array)
  (startIndex endIndex : Z) :
  0 <= startIndex -> startIndex <= endIndex ->
  endIndex <= 8 * lengthOf B - 1 ->
  ThrowingService.getBitRange B startIndex endIndex
  = inr (map (entryAt B)
           (indicesFrom startIndex (Z.to_nat (endIndex - startIndex + 1)))).
Proof.
  intros Hs Hse He. unfold ThrowingService.getBitRange.
  destruct (Z.ltb_spec startIndex 0); [lia|].
  destruct (Z.ltb_spec endIndex startIndex); [lia|].
  cbv zeta. cbn [orb].
  destruct (Z.gtb_spec startIndex (lengthOf B * 8 - 1)); [lia|].
  destruct (Z.gtb_spec endIndex (lengthOf B * 8 - 1)); [lia|].
  cbn [orb].
  rewrite (throwing_getBitRange_loop_in_range B endIndex He
             (Z.to_nat (endIndex - startIndex + 1)) startIndex [])
    by lia.
  reflexivity.
Qed.

(** The loop only ever appends entries whose purpose is the literal
    [revocation]. *)
Lemma getBitRange_loop_purpose (B : Uint8Array) (e i : Z)
  (acc : list BitStatus) :
  Forall (fun entry => purpose entry = "revocation") acc ->
  Forall (fun entry => purpose entry = "revocation")
    (BitstringService.getBitRange_loop B e i acc).
Proof.
  funelim (BitstringService.getBitRange_loop B e i acc); intros Hacc.
  - exact Hacc.
  - auto.
  - match goal with IH : Forall _ _ -> Forall _ _ |- _ => apply IH end.
    apply Forall_app. split; [exact Hacc|].
    constructor; [reflexivity | constructor].
Qed.

(** C5, as far as the code goes.  Every entry of a successful range query
    carries the purpose [revocation], whatever the credential declares: the
    query receives the bytes only. *)
Theorem getBitRange_purpose_revocation (B : Uint8Array)
  (startIndex endIndex : Z) (entries : list BitStatus) :
  BitstringService.getBitRange B startIndex endIndex = inr entries ->
  Forall (fun entry => purpose entry = "revocation") entries.
Proof.
  unfold BitstringService.getBitRange.
  destruct (startIndex <? 0); [discriminate|].
  destruct (endIndex <? startIndex); [discriminate|].
  cbv zeta.
  destruct (startIndex >? lengthOf B * 8 - 1); [discriminate|].
  destruct (endIndex >? lengthOf B * 8 - 1); [discriminate|].
  destruct (endIndex - startIndex + 1 >? 10000); [discriminate|].
  intros [= <-]. apply getBitRange_loop_purpose. constructor.
Qed.

Lemma getBitRange_purpose_revocation_witness :
  Forall (fun entry => purpose entry = "revocation")
    [mkBitStatus 0 true "revocation"; mkBitStatus 1 true "revocation"].
Proof.
  apply (getBitRange_purpose_revocation [Byte.x07; Byte.x80] 0 1).
  reflexivity.
Defined.

(** C5 as the specification words it fails: the sample credential declares
    the purpose [suspension], is fetched and decoded without error, and the
    range query over its bits labels the entry [revocation]. *)
Lemma getBitRange_purpose_not_declared :
  BitstringService.fetchStatusList (RT := Sample.runtime)
    "https://issuer.example/status/1"
  = inr Sample.decoded
  /\ BitstringService.statusPurpose Sample.decoded
     = inr (JS.JString "suspension")
  /\ ~ (forall entries,
          BitstringService.getBitRange
            (BitstringService.decodedBits Sample.decoded) 0 0
          = inr entries ->
          Forall (fun entry =>
                    BitstringService.statusPurpose Sample.decoded
                    = inr (JS.JString (purpose entry))) entries).
Proof.
  split; [reflexivity|]. split; [reflexivity|].
  intros Hall.
  specialize (Hall [mkBitStatus 0 true "revocation"] eq_refl).
  inversion Hall as [|? ? Hhead _]. discriminate Hhead.
Qed.

(** ** The compression resolver *)

Section Resolver.
Context {RT : Runtime}.
Import BitstringService.

(** The magic-byte test succeeds exactly on buffers that begin with the two
    bytes [1f 8b]. *)
Lemma hasGzipMagic_iff (compressed : Uint8Array) :
  hasGzipMagic compressed = true
  <-> exists rest, compressed = Byte.x1f :: Byte.x8b :: rest.
Proof.
  split.
  - destruct compressed as [|b0 [|b1 rest]]; try discriminate.
    unfold hasGzipMagic, at_. cbn.
    intros H. apply andb_prop in H. destruct H as [H0 H1].
    apply Z.eqb_eq in H0, H1.
    exists rest. f_equal; [|f_equal].
    + apply byteValue_inj. exact H0.
    + apply byteValue_inj. exact H1.
  - intros (rest & ->). reflexivity.
Qed.

Lemma hasGzipMagic_false (compressed : Uint8Array) :
  (forall rest, compressed <> Byte.x1f :: Byte.x8b :: rest) ->
  hasGzipMagic compressed = false.
Proof.
  intros Hno. destruct (hasGzipMagic compressed) eqn:E; [|reflexivity].
  apply hasGzipMagic_iff in E. destruct E as (rest & ->).
  now elim (Hno rest).
Qed.

(** Copying a buffer into a fresh [Uint8Array] returns the same bytes. *)
Lemma newUint8Array_copies (source : Uint8Array) :
  newUint8Array source = inr source.
Proof. reflexivity. Qed.

(** The only error the second block hands back is the GZIP one. *)
Lemma decompress_error_code (compressed : Uint8Array) (e : DetailedError) :
  decodeStatusList_decompress compressed = Returned e ->
  code e = GZIP_DECODE_ERROR.
Proof.
  unfold decodeStatusList_decompress. cbv zeta.
  destruct (hasGzipMagic compressed).
  - destruct (inflate compressed); [|discriminate].
    intros [= <-]. reflexivity.
  - destruct (inflateRaw compressed); [|discriminate].
    rewrite newUint8Array_copies. discriminate.
Qed.

Lemma decompress_never_throws (compressed : Uint8Array) (t : JS.Thrown) :
  decodeStatusList_decompress compressed <> Threw t.
Proof.
  unfold decodeStatusList_decompress. cbv zeta.
  destruct (hasGzipMagic compressed).
  - destruct (inflate compressed); discriminate.
  - destruct (inflateRaw compressed); [|discriminate].
    rewrite newUint8Array_copies. discriminate.
Qed.

(** The only error the first block hands back is the Base64 one. *)
Lemma base64_error_code (encodedList : JS.JSValue) (e : DetailedError) :
  decodeStatusList_base64 encodedList = Returned e ->
  code e = BASE64_DECODE_ERROR.
Proof.
  unfold decodeStatusList_base64.
  destruct (base64url_toBuffer encodedList); [|discriminate].
  destruct encodedList; cbn; try discriminate.
  destruct (atob _); [|discriminate].
  intros [= <-]. reflexivity.
Qed.

(** C6.  When the decoded buffer does not begin with [1f 8b] and raw
    DEFLATE throws on it, the resolver returns the buffer itself, and
    [decodeStatusList] succeeds with exactly these bytes. *)
Theorem decodeStatusList_passthrough (encodedList : JS.JSValue)
  (compressed : Uint8Array) :
  decodeStatusList_base64 encodedList = Next compressed ->
  (forall rest, compressed <> Byte.x1f :: Byte.x8b :: rest) ->
  (exists deflateError, inflateRaw compressed = inl deflateError) ->
  decodeStatusList_decompress compressed = Next compressed
  /\ decodeStatusList encodedList = inr (inr compressed).
Proof.
  intros Hbase Hmagic (deflateError & Hraw).
  assert (Hd : decodeStatusList_decompress compressed = Next compressed).
  { unfold decodeStatusList_decompress. cbv zeta.
    rewrite (hasGzipMagic_false compressed Hmagic), Hraw.
    rewrite newUint8Array_copies. reflexivity. }
  split; [exact Hd|].
  unfold decodeStatusList. rewrite Hbase. cbn [bind]. rewrite Hd.
  reflexivity.
Qed.

End Resolver.

Lemma decodeStatusList_passthrough_witness :
  BitstringService.decodeStatusList_decompress (RT := Sample.runtime)
    [Byte.x07; Byte.x80]
  = Next [Byte.x07; Byte.x80]
  /\ BitstringService.decodeStatusList (RT := Sample.runtime)
       (JS.JString "B4A")
     = inr (inr [Byte.x07; Byte.x80]).
Proof.
  apply (decodeStatusList_passthrough (RT := Sample.runtime)
           (JS.JString "B4A") [Byte.x07; Byte.x80]).
  - reflexivity.
  - intros rest. discriminate.
  - exists JS.ThrownOther. reflexivity.
Defined.

(** ** Unwrapping an enveloped credential *)

Lemma startsWith_split (s p : string) :
  JS.startsWith s p = true ->
  s = p ++ JS.substringFrom (String.length p) s.
Proof.
  unfold JS.startsWith. revert s.
  induction p as [|c p IH]; intros s Hs; [reflexivity|].
  destruct s as [|d s]; [discriminate|].
  cbn in Hs. destruct (ascii_dec c d) as [->|]; [|discriminate].
  cbn. f_equal. apply IH. exact Hs.
Qed.

(** No recognised prefix is the beginning of another one, so a token
    starts with at most one of them. *)
Lemma possiblePrefixes_exclusive (id p q : string) :
  In p BitstringService.possiblePrefixes ->
  In q BitstringService.possiblePrefixes ->
  JS.startsWith id p = true -> JS.startsWith id q = true -> p = q.
Proof.
  intros Hp Hq Hsp Hsq.
  apply startsWith_split in Hsp. rewrite Hsp in Hsq. clear Hsp.
  unfold BitstringService.possiblePrefixes in Hp, Hq.
  cbn [In] in Hp, Hq.
  repeat match goal with
         | H : _ \/ _ |- _ => destruct H as [H|H]
         | H : False |- _ => destruct H
         end;
    subst p q; try reflexivity; vm_compute in Hsq; discriminate.
Qed.

Lemma stripPrefix_no_match (prefixes : list string) (id : string) :
  (forall p, In p prefixes -> JS.startsWith id p = false) ->
  BitstringService.stripPrefix prefixes id = (id, false).
Proof.
  induction prefixes as [|p rest IH]; intros Hno; [reflexivity|].
  cbn [BitstringService.stripPrefix].
  rewrite (Hno p (or_introl eq_refl)).
  apply IH. intros q Hq. apply Hno. right. exact Hq.
Qed.

(** Whatever the loop cuts off is the first prefix of the list that the
    token starts with. *)
Lemma stripPrefix_match (prefixes : list string) (id jwtToken : string) :
  BitstringService.stripPrefix prefixes id = (jwtToken, true) ->
  exists p, In p prefixes /\ JS.startsWith id p = true
            /\ jwtToken = JS.substringFrom (String.length p) id.
Proof.
  induction prefixes as [|p rest IH]; [discriminate|].
  cbn [BitstringService.stripPrefix].
  destruct (JS.startsWith id p) eqn:E.
  - intros [= <-]. exists p. repeat split; [left; reflexivity | exact E].
  - intros H. destruct (IH H) as (q & Hq & Hs & Ht).
    exists q. repeat split; [right; exact Hq | exact Hs | exact Ht].
Qed.

Lemma stripPrefix_not_found (prefixes : list string) (id jwtToken : string) :
  BitstringService.stripPrefix prefixes id = (jwtToken, false) ->
  forall q, In q prefixes -> JS.startsWith id q = false.
Proof.
  induction prefixes as [|r rest IH]; intros E q Hq; [destruct Hq|].
  cbn [BitstringService.stripPrefix] in E.
  destruct (JS.startsWith id r) eqn:Er; [discriminate|].
  destruct Hq as [->|Hq]; [exact Er | exact (IH E q Hq)].
Qed.

Lemma stripPrefix_found (id p : string) :
  In p BitstringService.possiblePrefixes ->
  JS.startsWith id p = true ->
  BitstringService.stripPrefix BitstringService.possiblePrefixes id
  = (JS.substringFrom (String.length p) id, true).
Proof.
  intros Hp Hs.
  destruct (BitstringService.stripPrefix BitstringService.possiblePrefixes id)
    as [jwtToken found] eqn:E.
  destruct found.
  - destruct (stripPrefix_match _ _ _ E) as (q & Hq & Hsq & ->).
    rewrite (possiblePrefixes_exclusive id p q Hp Hq Hs Hsq). reflexivity.
  - rewrite (stripPrefix_not_found _ _ _ E p Hp) in Hs. discriminate.
Qed.

Section Unwrapper.
Context {RT : Runtime}.
Import BitstringService.

(** C7.  For a document whose [id] is a non-empty string: the recognised
    prefixes are the four data-URL prefixes in the order the specification
    lists them; when the [id] starts with one of them it starts with no
    other, exactly that prefix is cut off, and the rest of the [id] is what
    is parsed as the token; when it starts with none of them the
    result is a [JWT_PARSE_ERROR]. *)
Theorem decodeEnvelopedCredential_prefix (envelopedCred : JS.JSValue)
  (id : string) :
  JS.getProp envelopedCred "id" = inr (JS.JString id) ->
  id <> EmptyString ->
  possiblePrefixes
  = [ "data:application/vc+jwt,"; "data:application/vc-ld+jwt,";
      "data:application/vc+ld+jwt,"; "data:application/jwt," ]
  /\ (forall prefix,
        In prefix possiblePrefixes -> JS.startsWith id prefix = true ->
        (forall other,
           In other possiblePrefixes -> JS.startsWith id other = true ->
           other = prefix)
        /\ exists jwtToken,
             id = prefix ++ jwtToken
             /\ stripPrefix possiblePrefixes id = (jwtToken, true)
             /\ decodeEnvelopedCredential envelopedCred
                = tryCatch (decodeEnvelopedCredential_token jwtToken)
                    decodeEnvelopedCredential_catch)
  /\ ((forall prefix,
         In prefix possiblePrefixes -> JS.startsWith id prefix = false) ->
      exists e,
        decodeEnvelopedCredential envelopedCred = inl e
        /\ code e = JWT_PARSE_ERROR
        /\ message e = "Invalid JWT format").
Proof.
  intros Hid Hne.
  assert (Htruthy : JS.truthy (JS.JString id) = true).
  { cbn. destruct (String.eqb_spec id EmptyString); [contradiction|].
    reflexivity. }
  split; [reflexivity|]. split.
  - intros prefix Hin Hs. split.
    + intros other Hother Hso.
      exact (possiblePrefixes_exclusive id other prefix Hother Hin Hso Hs).
    + exists (JS.substringFrom (String.length prefix) id).
      pose proof (stripPrefix_found id prefix Hin Hs) as Hstrip.
      repeat split; [apply startsWith_split, Hs | exact Hstrip |].
      unfold decodeEnvelopedCredential.
      rewrite Hid. cbn [call bind]. rewrite Htruthy. cbn [negb bind].
      rewrite Hstrip. reflexivity.
  - intros Hnone.
    pose proof (stripPrefix_no_match possiblePrefixes id Hnone) as Hstrip.
    unfold decodeEnvelopedCredential.
    rewrite Hid. cbn [call bind]. rewrite Htruthy. cbn [negb bind].
    rewrite Hstrip. cbn [negb tryCatch].
    eexists. repeat split.
Qed.

(** An [id] that is there but is not a string has no [startsWith]; the
    [TypeError] ends in the [catch] block. *)
Lemma decodeEnvelopedCredential_id_not_string (envelopedCred id : JS.JSValue) :
  JS.getProp envelopedCred "id" = inr id ->
  JS.truthy id = true ->
  (forall s, id <> JS.JString s) ->
  exists e,
    decodeEnvelopedCredential envelopedCred = inl e
    /\ code e = UNKNOWN_ERROR.
Proof.
  intros Hid Htruthy Hns. unfold decodeEnvelopedCredential.
  rewrite Hid. cbn [call bind]. rewrite Htruthy. cbn [negb].
  destruct id; try (eexists; split; reflexivity).
  now elim (Hns s).
Qed.

End Unwrapper.

Lemma decodeEnvelopedCredential_prefix_witness :
  BitstringService.possiblePrefixes
  = [ "data:application/vc+jwt,"; "data:application/vc-ld+jwt,";
      "data:application/vc+ld+jwt,"; "data:application/jwt," ]
  /\ (forall prefix,
        In prefix BitstringService.possiblePrefixes ->
        JS.startsWith Sample.envelopedId prefix = true ->
        (forall other,
           In other BitstringService.possiblePrefixes ->
           JS.startsWith Sample.envelopedId other = true ->
           other = prefix)
        /\ exists jwtToken,
             Sample.envelopedId = prefix ++ jwtToken
             /\ BitstringService.stripPrefix
                  BitstringService.possiblePrefixes Sample.envelopedId
                = (jwtToken, true)
             /\ BitstringService.decodeEnvelopedCredential
                  (RT := Sample.runtime) Sample.enveloped
                = tryCatch
                    (BitstringService.decodeEnvelopedCredential_token
                       (RT := Sample.runtime) jwtToken)
                    BitstringService.decodeEnvelopedCredential_catch)
  /\ ((forall prefix,
         In prefix BitstringService.possiblePrefixes ->
         JS.startsWith Sample.envelopedId prefix = false) ->
      exists e,
        BitstringService.decodeEnvelopedCredential
          (RT := Sample.runtime) Sample.enveloped = inl e
        /\ code e = JWT_PARSE_ERROR
        /\ message e = "Invalid JWT format").
Proof.
  apply (decodeEnvelopedCredential_prefix (RT := Sample.runtime)
           Sample.enveloped Sample.envelopedId).
  - reflexivity.
  - discriminate.
Defined.

(** The sample envelope end to end: the prefix goes, the payload decodes
    to an empty object, and the missing subject is reported. *)
Example decodeEnvelopedCredential_sample :
  exists e,
    BitstringService.decodeEnvelopedCredential (RT := Sample.runtime)
      Sample.enveloped = inl e
    /\ code e = INVALID_CREDENTIAL_FORMAT
    /\ message e = "Invalid credential in JWT".
Proof. eexists. repeat split. Qed.

(** A token without a recognised prefix. *)
Example decodeEnvelopedCredential_no_prefix :
  exists e,
    BitstringService.decodeEnvelopedCredential (RT := Sample.runtime)
      (JS.JObject [ ("type", JS.JString "EnvelopedVerifiableCredential");
                    ("id", JS.JString "urn:uuid:e30.e30.sig") ])
    = inl e
    /\ code e = JWT_PARSE_ERROR.
Proof. eexists. split; reflexivity. Qed.

(** ** The credential validator *)

(** Reading a property of a truthy value never throws. *)
Lemma getProp_truthy (v : JS.JSValue) (k : string) :
  JS.truthy v = true -> exists x, JS.getProp v k = inr x.
Proof.
  destruct v; cbn; try discriminate; intros _; eexists; reflexivity.
Qed.

Lemma strictEqString_true (v : JS.JSValue) (s : string) :
  JS.strictEqString v s = true <-> v = JS.JString s.
Proof.
  destruct v; cbn; try (split; discriminate).
  rewrite String.eqb_eq. split; [now intros -> | now intros [= ->]].
Qed.

(** C8, as far as the code goes.  With [subject] the value of
    [credentialSubject]: a missing (or otherwise falsy) subject gives
    [MISSING_BITSTRING_LIST]; a subject whose [type] is not the string
    [BitstringStatusList] and has a string form [found] (the template
    literal converts it) gives [INVALID_CREDENTIAL_FORMAT], with the fixed
    title [Invalid BitstringStatusList] in [message] and [found] in
    [details]; a missing or empty [encodedList] gives
    [INVALID_CREDENTIAL_FORMAT]; and the validator lets the subject and its
    encoded list through exactly when all three checks pass. *)
Theorem validateCredentialSubject_checks
  (statusListCredential subject : JS.JSValue) :
  JS.getProp statusListCredential "credentialSubject" = inr subject ->
  (JS.truthy subject = false ->
   exists e,
     BitstringService.validateCredentialSubject statusListCredential
     = Returned e
     /\ code e = MISSING_BITSTRING_LIST)
  /\ (forall type found,
        JS.truthy subject = true ->
        JS.getProp subject "type" = inr type ->
        type <> JS.JString "BitstringStatusList" ->
        JS.toString type = inr found ->
        exists e,
          BitstringService.validateCredentialSubject statusListCredential
          = Returned e
          /\ code e = INVALID_CREDENTIAL_FORMAT
          /\ message e = "Invalid BitstringStatusList"
          /\ exists d, details e = Some d
                       /\ JS.includes d found = true)
  /\ (forall encodedList,
        JS.truthy subject = true ->
        JS.getProp subject "type" = inr (JS.JString "BitstringStatusList") ->
        JS.getProp subject "encodedList" = inr encodedList ->
        JS.truthy encodedList = false ->
        exists e,
          BitstringService.validateCredentialSubject statusListCredential
          = Returned e
          /\ code e = INVALID_CREDENTIAL_FORMAT)
  /\ (forall passed encodedList,
        BitstringService.validateCredentialSubject statusListCredential
        = Next (passed, encodedList)
        <-> (passed = subject
             /\ JS.truthy subject = true
             /\ JS.getProp subject "type"
                = inr (JS.JString "BitstringStatusList")
             /\ JS.getProp subject "encodedList" = inr encodedList
             /\ JS.truthy encodedList = true)).
Proof.
  intros Hsubject. unfold BitstringService.validateCredentialSubject.
  rewrite Hsubject. cbn [call bind].
  repeat apply conj.
  - intros ->. cbn [negb]. eexists. split; reflexivity.
  - intros type found -> Htype Hne Hfound. cbn [negb].
    rewrite Htype. cbn [call bind].
    destruct (JS.strictEqString type "BitstringStatusList") eqn:E.
    + apply strictEqString_true in E. contradiction.
    + cbn [negb]. rewrite Hfound. cbn [call bind].
      eexists. repeat split.
      eexists. split; [reflexivity|].
      do 6 apply includes_skip. apply (includes_app EmptyString).
  - intros encodedList -> Htype Henc Hfalsy.
    cbn [negb]. rewrite Htype. cbn [call bind JS.strictEqString].
    rewrite String.eqb_refl. cbn [negb]. rewrite Henc. cbn [call bind].
    rewrite Hfalsy. cbn [negb].
    eexists. split; reflexivity.
  - intros passed encodedList. split.
    + destruct (JS.truthy subject) eqn:Ht; cbn [negb]; [|discriminate].
      destruct (getProp_truthy subject "type" Ht) as (type & Htype).
      rewrite Htype. cbn [call bind].
      destruct (JS.strictEqString type "BitstringStatusList") eqn:E;
        cbn [negb]; [|destruct (JS.toString type); discriminate].
      apply strictEqString_true in E. subst type.
      destruct (getProp_truthy subject "encodedList" Ht) as (enc & Henc).
      rewrite Henc. cbn [call bind].
      destruct (JS.truthy enc) eqn:Hte; cbn [negb]; [|discriminate].
      intros [= <- <-]. repeat split; assumption.
    + intros (-> & -> & Htype & Henc & Hte). cbn [negb].
      rewrite Htype. cbn [call bind JS.strictEqString].
      rewrite String.eqb_refl. cbn [negb]. rewrite Henc. cbn [call bind].
      rewrite Hte. reflexivity.
Qed.

Lemma validateCredentialSubject_checks_witness :
  exists e,
    BitstringService.validateCredentialSubject Sample.otherDocument
    = Returned e
    /\ code e = INVALID_CREDENTIAL_FORMAT
    /\ message e = "Invalid BitstringStatusList"
    /\ exists d, details e = Some d
                 /\ JS.includes d "SomethingElse" = true.
Proof.
  apply (proj1 (proj2 (validateCredentialSubject_checks
                         Sample.otherDocument Sample.otherSubject eq_refl))
           (JS.JString "SomethingElse") "SomethingElse").
  - reflexivity.
  - reflexivity.
  - discriminate.
  - reflexivity.
Defined.

(** A property no field of an object is named after reads as [undefined],
    which is falsy: an absent [credentialSubject] and an absent or empty
    [encodedList] are instances of the falsy cases above. *)
Lemma getProp_absent (fields : list (string * JS.JSValue)) (k : string) :
  (forall v, ~ In (k, v) fields) ->
  JS.getProp (JS.JObject fields) k = inr JS.JUndefined.
Proof.
  intros Habsent. cbn. f_equal.
  induction fields as [|[k' v] rest IH]; [reflexivity|].
  cbn. destruct (String.eqb_spec k k') as [->|_].
  - elim (Habsent v). left. reflexivity.
  - apply IH. intros w Hw. apply (Habsent w). right. exact Hw.
Qed.

Example validateCredentialSubject_absent_subject :
  exists e,
    BitstringService.validateCredentialSubject
      (JS.JObject [ ("type", JS.JArray [ JS.JString "VerifiableCredential" ]) ])
    = Returned e
    /\ code e = MISSING_BITSTRING_LIST.
Proof. eexists. split; reflexivity. Qed.

Example validateCredentialSubject_empty_list :
  exists e,
    BitstringService.validateCredentialSubject
      (JS.JObject
         [ ("credentialSubject",
            JS.JObject [ ("type", JS.JString "BitstringStatusList");
                         ("encodedList", JS.JString EmptyString) ]) ])
    = Returned e
    /\ code e = INVALID_CREDENTIAL_FORMAT
    /\ message e = "Missing encoded list".
Proof. eexists. repeat split. Qed.

(** C8 as the specification words it fails: for a subject of type
    [SomethingElse] the [message] field of the error does not contain the
    type that was found. *)
Lemma validateCredentialSubject_message_lacks_type :
  ~ (exists e,
       BitstringService.validateCredentialSubject Sample.otherDocument
       = Returned e
       /\ code e = INVALID_CREDENTIAL_FORMAT
       /\ JS.includes (message e) "SomethingElse" = true).
Proof.
  intros (e & He & _ & Hinc).
  vm_compute in He. injection He as <-.
  vm_compute in Hinc. discriminate.
Qed.

(** A type that has no string form: the template literal throws before
    the error value is built, and the validator does not return. *)
Lemma validateCredentialSubject_unprintable
  (statusListCredential subject type : JS.JSValue) (thrown : JS.Thrown) :
  JS.getProp statusListCredential "credentialSubject" = inr subject ->
  JS.truthy subject = true ->
  JS.getProp subject "type" = inr type ->
  JS.toString type = inl thrown ->
  BitstringService.validateCredentialSubject statusListCredential
  = Threw thrown.
Proof.
  intros Hsubject Htruthy Htype Hthrown.
  unfold BitstringService.validateCredentialSubject.
  rewrite Hsubject. cbn [call bind]. rewrite Htruthy. cbn [negb].
  rewrite Htype. cbn [call bind].
  destruct (JS.strictEqString type "BitstringStatusList") eqn:E.
  - apply strictEqString_true in E. subst type. discriminate Hthrown.
  - cbn [negb]. rewrite Hthrown. reflexivity.
Qed.

Example validateCredentialSubject_unprintable_sample :
  BitstringService.validateCredentialSubject
    (JS.JObject
       [ ("credentialSubject",
          JS.JObject
            [ ("type", JS.JObject [ ("toString", JS.JNumber 1) ]) ]) ])
  = Threw (JS.ThrownTypeError "Cannot convert object to primitive value").
Proof. reflexivity. Qed.

Section Fetch.
Context {RT : Runtime}.
Import BitstringService.

(** A [DecodedStatusList] is produced only from a credential that passed
    the validator, and its bytes are what [decodeStatusList] made of the
    encoded list the validator let through. *)
Lemma fetchStatusList_success (url : string) (decoded : DecodedStatusList) :
  fetchStatusList url = inr decoded ->
  exists encodedList,
    validateCredentialSubject (credential decoded)
    = Next (bitstringList decoded, encodedList)
    /\ decodeStatusList encodedList = inr (inr (decodedBits decoded))
    /\ totalBits decoded = lengthOf (decodedBits decoded) * 8.
Proof.
  unfold fetchStatusList, tryCatch.
  destruct (fetch url) as [fetchError|response];
    [destruct (isCorsFailure fetchError); discriminate|].
  destruct (negb (Http.ok response)); [discriminate|].
  destruct (Http.json response) as [|document]; [discriminate|].
  destruct (call (JS.getProp document "type")) as [| |type];
    cbn [bind]; try discriminate.
  destruct (negb (JS.truthy type)); [discriminate|].
  set (unwrapped := if JS.strictEqString type "EnvelopedVerifiableCredential"
                    then _ else _).
  destruct unwrapped as [| |[statusListCredential kind]];
    cbn [bind]; try discriminate.
  destruct (validateCredentialSubject statusListCredential)
    as [| |[subject encodedList]] eqn:Hvalid; cbn [bind]; try discriminate.
  destruct (decodeStatusList encodedList) as [|[|bits]] eqn:Hdecode;
    cbn [call bind]; try discriminate.
  intros [= <-]. exists encodedList. cbn. auto.
Qed.

End Fetch.

(** * Further properties of the code *)

(** ** Padding *)

Lemma string_length_app (a b : string) :
  String.length (a ++ b) = (String.length a + String.length b)%nat.
Proof. induction a as [|c a IH]; cbn; [reflexivity | now rewrite IH]. Qed.

Lemma string_app_assoc (a b c : string) : (a ++ b) ++ c = a ++ (b ++ c).
Proof. induction a as [|x a IH]; cbn; [reflexivity | now rewrite IH]. Qed.

Lemma string_app_empty_r (a : string) : a ++ EmptyString = a.
Proof. induction a as [|x a IH]; cbn; [reflexivity | now rewrite IH]. Qed.

Lemma repeat_length (c : ascii) (n : nat) :
  String.length (JS.repeat c n) = n.
Proof. induction n as [|n IH]; cbn; [reflexivity | now rewrite IH]. Qed.

(** The number of pad characters that brings a length to a multiple of 4. *)
Lemma pad_count_step (len : nat) :
  (len mod 4 <> 0)%nat ->
  ((4 - len mod 4) mod 4 = S ((4 - (len + 1) mod 4) mod 4))%nat.
Proof.
  intros Hne.
  pose proof (Nat.mod_upper_bound len 4 ltac:(lia)) as Hlt.
  rewrite <- (Nat.Div0.add_mod_idemp_l len 1 4).
  destruct (len mod 4)%nat as [|[|[|[|r]]]]; [lia | | | | lia];
    reflexivity.
Qed.

Lemma pad_count_total (len : nat) :
  ((len + (4 - len mod 4) mod 4) mod 4 = 0)%nat.
Proof.
  pose proof (Nat.mod_upper_bound len 4 ltac:(lia)) as Hlt.
  rewrite <- Nat.Div0.add_mod_idemp_l.
  destruct (len mod 4)%nat as [|[|[|[|r]]]]; [| | | | lia]; reflexivity.
Qed.

Lemma padLoop_appends (base64 : string) :
  BitstringService.padLoop base64
  = base64 ++ JS.repeat "=" ((4 - String.length base64 mod 4) mod 4)%nat.
Proof.
  funelim (BitstringService.padLoop base64).
  - unfold BitstringService.lengthMod4 in *.
    match goal with H : (_ mod 4 = 0)%nat |- _ => rewrite H end.
    cbn. now rewrite string_app_empty_r.
  - unfold BitstringService.lengthMod4 in *.
    match goal with
    | IH : BitstringService.padLoop _ = _ ++ JS.repeat _ _ |- _ =>
        rewrite IH
    end.
    rewrite string_length_app. cbn [String.length].
    rewrite (pad_count_step (String.length base64)) by assumption.
    rewrite string_app_assoc. reflexivity.
Qed.

(** The padding loop appends between zero and three [=] characters, just
    enough for the length to become a multiple of 4. *)
Theorem padLoop_pads (base64 : string) :
  exists k : nat,
    (k < 4)%nat
    /\ BitstringService.padLoop base64 = base64 ++ JS.repeat "=" k
    /\ (String.length (BitstringService.padLoop base64) mod 4 = 0)%nat.
Proof.
  exists ((4 - String.length base64 mod 4) mod 4)%nat.
  split; [apply Nat.mod_upper_bound; lia|].
  split; [apply padLoop_appends|].
  rewrite padLoop_appends, string_length_app, repeat_length.
  apply pad_count_total.
Qed.

(** The padding expression of the token decoder,
    ['='.repeat((4 - payload.length % 4) % 4)], counts the same pad
    characters as the loop: both decoders pad alike. *)
Theorem padding_routines_agree (payload : string) :
  payload
  ++ JS.repeat "="
       (Z.to_nat (JS.rem (4 - JS.rem (JS.strlen payload) 4) 4))
  = BitstringService.padLoop payload.
Proof.
  rewrite padLoop_appends.
  f_equal. f_equal. unfold JS.rem, JS.strlen.
  pose proof (Nat.mod_upper_bound (String.length payload) 4 ltac:(lia))
    as Hb.
  rewrite (Z.rem_mod_nonneg (Z.of_nat _) 4) by lia.
  assert (Hm : Z.of_nat (String.length payload) mod 4
               = Z.of_nat (String.length payload mod 4))
    by (rewrite Nat2Z.inj_mod; reflexivity).
  rewrite Hm. rewrite Z.rem_mod_nonneg by lia.
  replace (4 - Z.of_nat (String.length payload mod 4))
    with (Z.of_nat (4 - String.length payload mod 4)) by lia.
  change (Z.of_nat (4 - String.length payload mod 4) mod 4)
    with (Z.of_nat (4 - String.length payload mod 4) mod Z.of_nat 4).
  rewrite <- Nat2Z.inj_mod. apply Nat2Z.id.
Qed.

(** ** Decoding the encoded list *)

Lemma replaceAll_removes (c d x : ascii) (s : string) :
  d <> c -> In x (list_ascii_of_string (JS.replaceAll c d s)) -> x <> c.
Proof.
  intros Hdc. induction s as [|y s IH]; cbn; [contradiction|].
  intros [<-|Hin]; [|exact (IH Hin)].
  destruct (Ascii.eqb_spec y c); congruence.
Qed.

Lemma replaceAll_keeps_absent (c d x : ascii) (s : string) :
  d <> x ->
  (forall y, In y (list_ascii_of_string s) -> y <> x) ->
  forall y, In y (list_ascii_of_string (JS.replaceAll c d s)) -> y <> x.
Proof.
  intros Hdx. induction s as [|z s IH]; cbn; [contradiction|].
  intros Hs y [<-|Hin].
  - destruct (Ascii.eqb_spec z c); [exact Hdx|].
    apply Hs. left. reflexivity.
  - apply IH; [|exact Hin]. intros w Hw. apply Hs. right. exact Hw.
Qed.

Lemma list_ascii_app (a b : string) :
  list_ascii_of_string (a ++ b)
  = (list_ascii_of_string a ++ list_ascii_of_string b)%list.
Proof. induction a as [|c a IH]; cbn; [reflexivity | now rewrite IH]. Qed.

Lemma repeat_chars (c x : ascii) (n : nat) :
  In x (list_ascii_of_string (JS.repeat c n)) -> x = c.
Proof.
  induction n as [|n IH]; cbn; [contradiction|].
  intros [<-|Hin]; [reflexivity | exact (IH Hin)].
Qed.

Lemma bytesOfBinaryString_length (binaryString : string) :
  lengthOf (BitstringService.bytesOfBinaryString binaryString)
  = JS.strlen binaryString.
Proof.
  unfold lengthOf, BitstringService.bytesOfBinaryString, JS.strlen.
  rewrite length_map. f_equal.
  induction binaryString as [|c s IH]; cbn; [reflexivity | now rewrite IH].
Qed.

Section Decoding.
Context {RT : Runtime}.
Import BitstringService.

(** When the [base64url] package throws on a string, [atob] is handed the
    string with [-] and [_] translated away and padded to a multiple of 4
    characters; the bytes of the binary string it returns are the decoded
    buffer, one byte per character, and its failure is a
    [BASE64_DECODE_ERROR]. *)
Theorem decodeStatusList_base64_fallback (s : string) (t : JS.Thrown) :
  base64url_toBuffer (JS.JString s) = inl t ->
  let base64 := padLoop (JS.replaceAll "_" "/" (JS.replaceAll "-" "+" s)) in
  (String.length base64 mod 4 = 0)%nat
  /\ (forall c, In c (list_ascii_of_string base64) ->
                c <> "-"%char /\ c <> "_"%char)
  /\ (forall binaryString,
        atob base64 = inr binaryString ->
        decodeStatusList_base64 (JS.JString s)
        = Next (bytesOfBinaryString binaryString)
        /\ lengthOf (bytesOfBinaryString binaryString)
           = JS.strlen binaryString)
  /\ (forall atobError,
        atob base64 = inl atobError ->
        exists e,
          decodeStatusList_base64 (JS.JString s) = Returned e
          /\ code e = BASE64_DECODE_ERROR).
Proof.
  intros Hpkg base64. repeat apply conj.
  - subst base64. rewrite padLoop_appends, string_length_app, repeat_length.
    apply pad_count_total.
  - intros c Hc. subst base64. rewrite padLoop_appends in Hc.
    rewrite list_ascii_app in Hc. apply in_app_or in Hc.
    destruct Hc as [Hc|Hc].
    + split.
      * revert c Hc. apply replaceAll_keeps_absent; [discriminate|].
        intros y Hy.
        refine (replaceAll_removes "-" "+" y s _ Hy). discriminate.
      * refine (replaceAll_removes "_" "/" c _ _ Hc). discriminate.
    + apply repeat_chars in Hc. subst c. split; discriminate.
  - intros binaryString Hatob. split; [|apply bytesOfBinaryString_length].
    unfold decodeStatusList_base64. rewrite Hpkg. cbn [bind].
    fold base64. rewrite Hatob. reflexivity.
  - intros atobError Hatob.
    unfold decodeStatusList_base64. rewrite Hpkg. cbn [bind].
    fold base64. rewrite Hatob. eexists. split; reflexivity.
Qed.

(** A buffer that begins with [1f 8b] is inflated as GZIP and nothing
    else: the result is what [inflate] returns, and when [inflate] throws
    the answer is [GZIP_DECODE_ERROR], whatever raw DEFLATE would make of
    the same bytes. *)
Theorem decodeStatusList_gzip_only (encodedList : JS.JSValue)
  (rest : Uint8Array) :
  decodeStatusList_base64 encodedList
  = Next (Byte.x1f :: Byte.x8b :: rest) ->
  (forall decompressed,
     decodeStatusList encodedList = inr (inr decompressed)
     <-> inflate (Byte.x1f :: Byte.x8b :: rest) = inr decompressed)
  /\ (forall gzipError,
        inflate (Byte.x1f :: Byte.x8b :: rest) = inl gzipError ->
        exists e,
          decodeStatusList encodedList = inr (inl e)
          /\ code e = GZIP_DECODE_ERROR
          /\ details e
             = Some ("The GZIP compressed data could not be decompressed. "
                     ++ JS.messageOr "Unknown error" gzipError)).
Proof.
  intros Hbase. unfold decodeStatusList. rewrite Hbase. cbn [bind].
  unfold decodeStatusList_decompress. cbv zeta.
  replace (hasGzipMagic (Byte.x1f :: Byte.x8b :: rest)) with true
    by reflexivity.
  split.
  - intros decompressed.
    destruct (inflate (Byte.x1f :: Byte.x8b :: rest));
      split; intros H; try discriminate; congruence.
  - intros gzipError ->.
    eexists. repeat split.
Qed.

(** For an encoded list that is a string, a failure of [decodeStatusList]
    is either the Base64 one (the package and [atob] both threw) or the
    GZIP one (magic bytes present and [inflate] threw); the [catch] block is
    not reached. *)
Theorem decodeStatusList_string_errors (s : string) (e : DetailedError) :
  decodeStatusList (JS.JString s) = inr (inl e) ->
  (code e = BASE64_DECODE_ERROR
   /\ (exists t, base64url_toBuffer (JS.JString s) = inl t)
   /\ (exists t,
         atob (padLoop (JS.replaceAll "_" "/" (JS.replaceAll "-" "+" s)))
         = inl t))
  \/ (code e = GZIP_DECODE_ERROR
      /\ exists compressed,
           decodeStatusList_base64 (JS.JString s) = Next compressed
           /\ hasGzipMagic compressed = true
           /\ exists t, inflate compressed = inl t).
Proof.
  unfold decodeStatusList.
  destruct (decodeStatusList_base64 (JS.JString s))
    as [t|e0|compressed] eqn:Hb; cbn [bind].
  - exfalso. unfold decodeStatusList_base64 in Hb.
    destruct (base64url_toBuffer (JS.JString s)); [|discriminate].
    cbn [bind] in Hb. destruct (atob _); discriminate.
  - intros [= <-]. left.
    unfold decodeStatusList_base64 in Hb.
    destruct (base64url_toBuffer (JS.JString s)) as [t1|] eqn:Hpkg;
      [|discriminate].
    cbn [bind] in Hb.
    destruct (atob _) as [t2|] eqn:Hatob; [|discriminate].
    injection Hb as <-.
    split; [reflexivity|]. split; eexists; reflexivity.
  - unfold decodeStatusList_decompress. cbv zeta.
    destruct (hasGzipMagic compressed) eqn:Hmagic.
    + destruct (inflate compressed) as [t|d] eqn:Hinf; [|discriminate].
      intros [= <-]. right. split; [reflexivity|].
      exists compressed. repeat split; try assumption.
      exists t. exact Hinf.
    + destruct (inflateRaw compressed); discriminate.
Qed.

(** On an encoded list that is not a string and that the package refuses,
    the manual fallback throws at [replace], and the [catch] block throws
    in turn at [substring]: the function does not return. *)
Lemma decodeStatusList_not_a_string (encodedList : JS.JSValue)
  (refused : JS.Thrown) :
  (forall s, encodedList <> JS.JString s) ->
  base64url_toBuffer encodedList = inl refused ->
  exists message,
    decodeStatusList encodedList = inl (JS.ThrownTypeError message)
    /\ JS.includes message "substring" = true.
Proof.
  intros Hns Hpkg. unfold decodeStatusList, decodeStatusList_base64.
  rewrite Hpkg.
  destruct encodedList; cbn [bind]; try (eexists; split; reflexivity).
  now elim (Hns s).
Qed.

End Decoding.

(** ** Splitting a token *)

Lemma split_length (sep : ascii) (s : string) :
  List.length (JS.split sep s) = S (occurrences sep s).
Proof.
  induction s as [|x s IH]; [reflexivity|].
  cbn [JS.split occurrences].
  destruct (Ascii.eqb x sep); cbn [List.length Nat.add].
  - now rewrite IH.
  - destruct (JS.split sep s) as [|h t]; [discriminate IH|].
    cbn [List.length] in *. exact IH.
Qed.

Lemma split_no_separator (sep : ascii) (p : string) :
  occurrences sep p = O -> JS.split sep p = [p].
Proof.
  induction p as [|x p IH]; [reflexivity|].
  cbn [JS.split occurrences].
  destruct (Ascii.eqb x sep); [discriminate|].
  cbn [Nat.add]. intros H. rewrite (IH H). reflexivity.
Qed.

(** A separator-free text in front of a string only grows the first
    part. *)
Lemma split_prepend (sep : ascii) (p s : string) :
  occurrences sep p = O ->
  JS.split sep (p ++ s)
  = match JS.split sep s with
    | [] => [p]
    | h :: t => (p ++ h) :: t
    end.
Proof.
  induction p as [|x p IH]; intros Hp.
  - cbn [append]. destruct (JS.split sep s) eqn:E; [|reflexivity].
    pose proof (split_length sep s) as Hl. rewrite E in Hl. discriminate.
  - cbn [occurrences] in Hp. cbn [append JS.split].
    destruct (Ascii.eqb x sep); [discriminate|].
    cbn [Nat.add] in Hp. rewrite (IH Hp).
    destruct (JS.split sep s); reflexivity.
Qed.

Lemma split_three (h p g : string) :
  occurrences "." h = O -> occurrences "." p = O -> occurrences "." g = O ->
  JS.split "." (h ++ "." ++ p ++ "." ++ g) = [h; p; g].
Proof.
  intros Hh Hp Hg.
  rewrite (split_prepend "." h _ Hh). cbn [append JS.split].
  replace (Ascii.eqb "." ".") with true by reflexivity.
  rewrite (split_prepend "." p _ Hp). cbn [append JS.split].
  replace (Ascii.eqb "." ".") with true by reflexivity.
  rewrite (split_no_separator "." g Hg).
  now rewrite !string_app_empty_r.
Qed.

Section Token.
Context {RT : Runtime}.
Import BitstringService.

(** A token that does not have exactly two dots is refused as
    [JWT_PARSE_ERROR] before anything is decoded; the error reports the
    number of parts found. *)
Theorem decodeEnvelopedCredential_token_parts (jwtToken : string) :
  jwtToken <> EmptyString ->
  occurrences "." jwtToken <> 2%nat ->
  exists e,
    decodeEnvelopedCredential_token jwtToken = Returned e
    /\ code e = JWT_PARSE_ERROR
    /\ message e = "Invalid JWT structure"
    /\ details e
       = Some ("JWT must have 3 parts (header.payload.signature), but found "
               ++ JS.numberToString
                    (Z.of_nat (S (occurrences "." jwtToken)))
               ++ " parts.").
Proof.
  intros Hne Hdots. unfold decodeEnvelopedCredential_token.
  destruct (String.eqb_spec jwtToken EmptyString); [contradiction|].
  cbv zeta. rewrite split_length.
  destruct (Z.eqb_spec (Z.of_nat (S (occurrences "." jwtToken))) 3); [lia|].
  cbn [negb]. eexists. repeat split.
Qed.

(** The header and the signature of a token are never looked at: two
    tokens with the same payload decode alike. *)
Theorem decodeEnvelopedCredential_token_payload_only
  (header signature header' signature' payload : string) :
  occurrences "." header = O -> occurrences "." signature = O ->
  occurrences "." header' = O -> occurrences "." signature' = O ->
  occurrences "." payload = O ->
  decodeEnvelopedCredential_token
    (header ++ "." ++ payload ++ "." ++ signature)
  = decodeEnvelopedCredential_token
      (header' ++ "." ++ payload ++ "." ++ signature').
Proof.
  intros Hh Hs Hh' Hs' Hp.
  assert (Hnonempty : forall a b : string,
             String.eqb (a ++ "." ++ b) EmptyString = false).
  { intros a b. destruct a; reflexivity. }
  unfold decodeEnvelopedCredential_token.
  rewrite !Hnonempty. cbv zeta.
  rewrite (split_three header payload signature Hh Hp Hs).
  rewrite (split_three header' payload signature' Hh' Hp Hs').
  reflexivity.
Qed.

End Token.

(** ** What unwrapping returns *)

Section Unwrapped.
Context {RT : Runtime}.
Import BitstringService.

Lemma token_success (jwtToken : string) (credentialData : JS.JSValue) :
  decodeEnvelopedCredential_token jwtToken = Next credentialData ->
  exists subject,
    JS.getProp credentialData "credentialSubject" = inr subject
    /\ JS.truthy subject = true.
Proof.
  unfold decodeEnvelopedCredential_token.
  destruct (String.eqb jwtToken EmptyString); [discriminate|].
  cbv zeta.
  destruct (negb (Z.of_nat (List.length (JS.split "." jwtToken)) =? 3));
    [discriminate|].
  destruct (String.eqb (nth 1 (JS.split "." jwtToken) EmptyString)
              EmptyString); [discriminate|].
  destruct (atob _); [discriminate|].
  destruct (JSON_parse _) as [|data]; [discriminate|].
  destruct (JS.getProp data "credentialSubject") as [|subject] eqn:Hs;
    cbn [call bind]; [discriminate|].
  destruct (JS.truthy subject) eqn:Ht; cbn [negb]; [|discriminate].
  intros [= <-]. exists subject. split; assumption.
Qed.

Lemma token_error_codes (jwtToken : string) (e : DetailedError) :
  decodeEnvelopedCredential_token jwtToken = Returned e ->
  In (code e)
     [JWT_PARSE_ERROR; BASE64_DECODE_ERROR; INVALID_JSON;
      INVALID_CREDENTIAL_FORMAT].
Proof.
  unfold decodeEnvelopedCredential_token.
  destruct (String.eqb jwtToken EmptyString);
    [intros [= <-]; cbn; auto|].
  cbv zeta.
  destruct (negb (Z.of_nat (List.length (JS.split "." jwtToken)) =? 3));
    [intros [= <-]; cbn; auto|].
  destruct (String.eqb (nth 1 (JS.split "." jwtToken) EmptyString)
              EmptyString); [intros [= <-]; cbn; auto|].
  destruct (atob _); [intros [= <-]; cbn; auto|].
  destruct (JSON_parse _) as [|data]; [intros [= <-]; cbn; auto|].
  destruct (JS.getProp data "credentialSubject") as [|subject];
    cbn [call bind]; [discriminate|].
  destruct (JS.truthy subject); cbn [negb]; [discriminate|].
  intros [= <-]. cbn. auto.
Qed.

Lemma unwrap_success_inversion
  (envelopedCred credentialData : JS.JSValue) :
  decodeEnvelopedCredential envelopedCred = inr credentialData ->
  (exists subject,
     JS.getProp credentialData "credentialSubject" = inr subject
     /\ JS.truthy subject = true)
  /\ exists id prefix jwtToken,
       JS.getProp envelopedCred "id" = inr (JS.JString id)
       /\ In prefix possiblePrefixes
       /\ id = prefix ++ jwtToken
       /\ decodeEnvelopedCredential_token jwtToken = Next credentialData.
Proof.
  unfold decodeEnvelopedCredential.
  destruct (JS.getProp envelopedCred "id") as [|id] eqn:Hid;
    cbn [call bind tryCatch]; [discriminate|].
  destruct (JS.truthy id); cbn [negb]; [|discriminate].
  destruct id as [| | | |id| |]; cbn [bind tryCatch]; try discriminate.
  destruct (stripPrefix possiblePrefixes id) as [jwtToken found] eqn:Hstrip.
  destruct found; cbn [negb]; [|discriminate].
  destruct (decodeEnvelopedCredential_token jwtToken) as [| |c] eqn:Htoken;
    cbn [tryCatch]; try discriminate.
  intros [= <-]. split; [exact (token_success _ _ Htoken)|].
  destruct (stripPrefix_match _ _ _ Hstrip) as (prefix & Hin & Hs & ->).
  exists id, prefix, (JS.substringFrom (String.length prefix) id).
  repeat split; try assumption. apply startsWith_split, Hs.
Qed.

Lemma unwrap_error_code_set
  (envelopedCred : JS.JSValue) (e : DetailedError) :
  decodeEnvelopedCredential envelopedCred = inl e ->
  In (code e)
     [JWT_PARSE_ERROR; BASE64_DECODE_ERROR; INVALID_JSON;
      INVALID_CREDENTIAL_FORMAT]
  \/ (code e = UNKNOWN_ERROR
      /\ message e = "Failed to decode enveloped credential").
Proof.
  unfold decodeEnvelopedCredential.
  destruct (JS.getProp envelopedCred "id") as [|id] eqn:Hid;
    cbn [call bind tryCatch].
  - intros [= <-]. right. split; reflexivity.
  - destruct (JS.truthy id); cbn [negb].
    2:{ cbn [tryCatch]. intros [= <-]. left. cbn. auto. }
    destruct id as [| | | |id| |]; cbn [bind tryCatch];
      try (intros [= <-]; right; split; reflexivity).
    destruct (stripPrefix possiblePrefixes id) as [jwtToken found].
    destruct found; cbn [negb].
    2:{ cbn [tryCatch]. intros [= <-]. left. cbn. auto. }
    destruct (decodeEnvelopedCredential_token jwtToken) as [t|e0|c] eqn:Ht;
      cbn [tryCatch]; try discriminate.
    + intros [= <-]. right. split; reflexivity.
    + intros [= <-]. left. exact (token_error_codes _ _ Ht).
Qed.

(** Unwrapping succeeds only with a credential that carries a truthy
    [credentialSubject], taken from an [id] that is a string beginning with
    one of the recognised prefixes. *)
Theorem decodeEnvelopedCredential_success
  (envelopedCred credentialData : JS.JSValue) :
  decodeEnvelopedCredential envelopedCred = inr credentialData ->
  (exists subject,
     JS.getProp credentialData "credentialSubject" = inr subject
     /\ JS.truthy subject = true)
  /\ exists id prefix jwtToken,
       JS.getProp envelopedCred "id" = inr (JS.JString id)
       /\ In prefix possiblePrefixes
       /\ id = prefix ++ jwtToken
       /\ decodeEnvelopedCredential_token jwtToken = Next credentialData.
Proof. exact (unwrap_success_inversion envelopedCred credentialData). Qed.

(** Every error of unwrapping has one of five codes; [UNKNOWN_ERROR] comes
    from the [catch] block and carries its fixed message. *)
Theorem decodeEnvelopedCredential_errors
  (envelopedCred : JS.JSValue) (e : DetailedError) :
  decodeEnvelopedCredential envelopedCred = inl e ->
  In (code e)
     [JWT_PARSE_ERROR; BASE64_DECODE_ERROR; INVALID_JSON;
      INVALID_CREDENTIAL_FORMAT]
  \/ (code e = UNKNOWN_ERROR
      /\ message e = "Failed to decode enveloped credential").
Proof. exact (unwrap_error_code_set envelopedCred e). Qed.

(** A missing or empty [id], and an [id] that is nothing but a recognised
    prefix, are both refused as [JWT_PARSE_ERROR]. *)
Theorem decodeEnvelopedCredential_no_token
  (envelopedCred id : JS.JSValue) :
  JS.getProp envelopedCred "id" = inr id ->
  JS.truthy id = false
  \/ (exists prefix, In prefix possiblePrefixes /\ id = JS.JString prefix) ->
  exists e,
    decodeEnvelopedCredential envelopedCred = inl e
    /\ code e = JWT_PARSE_ERROR
    /\ (JS.truthy id = false -> message e = "Missing JWT token")
    /\ (JS.truthy id = true -> message e = "Empty JWT token").
Proof.
  intros Hid Hcase. unfold decodeEnvelopedCredential.
  rewrite Hid. cbn [call bind].
  destruct Hcase as [Hfalsy|(prefix & Hin & ->)].
  - rewrite Hfalsy. cbn [negb tryCatch].
    eexists. split; [reflexivity|]. split; [reflexivity|].
    split; [intros _; reflexivity | discriminate].
  - unfold possiblePrefixes in Hin. cbn [In] in Hin.
    repeat match goal with
           | H : _ \/ _ |- _ => destruct H as [H|H]
           | H : False |- _ => destruct H
           end; subst prefix;
      (eexists; split; [reflexivity|]; split; [reflexivity|];
       split; [discriminate | intros _; reflexivity]).
Qed.

End Unwrapped.

(** ** Fetching *)

Section Fetching.
Context {RT : Runtime}.
Import BitstringService.

(** A response that is not [ok] is classified by its status alone: the
    body is not read, the error carries the status as [statusCode], the five
    statuses 404, 401, 403, 502 and 503 have codes of their own and every
    other status, 500 included, is a [SERVER_ERROR]. *)
Theorem fetchStatusList_http_error (url : string) (response : Http.Response) :
  fetch url = inr response ->
  Http.ok response = false ->
  exists e,
    fetchStatusList url = inl e
    /\ statusCode e = Some (Http.status response)
    /\ (Http.status response = 404 -> code e = NOT_FOUND)
    /\ (Http.status response = 401 -> code e = UNAUTHORIZED)
    /\ (Http.status response = 403 -> code e = FORBIDDEN)
    /\ (Http.status response = 502 -> code e = BAD_GATEWAY)
    /\ (Http.status response = 503 -> code e = SERVICE_UNAVAILABLE)
    /\ (~ In (Http.status response) [404; 401; 403; 502; 503] ->
        code e = SERVER_ERROR).
Proof.
  intros Hfetch Hok. unfold fetchStatusList.
  rewrite Hfetch, Hok. cbn [negb tryCatch].
  exists (httpError response). split; [reflexivity|].
  unfold httpError. cbv zeta.
  repeat match goal with
         | |- context [if ?x =? ?y then _ else _] =>
             destruct (Z.eqb_spec x y)
         end;
    cbn [code statusCode]; repeat split; intros;
    try reflexivity; try lia; try (f_equal; lia);
    exfalso;
    match goal with H : ~ In _ _ |- _ => apply H; cbn [In]; lia end.
Qed.

(** What a successful fetch went through, stage by stage. *)
Lemma fetchStatusList_inversion (url : string) (decoded : DecodedStatusList) :
  fetchStatusList url = inr decoded ->
  exists response document type encodedList,
    fetch url = inr response
    /\ Http.ok response = true
    /\ Http.json response = inr document
    /\ JS.getProp document "type" = inr type
    /\ JS.truthy type = true
    /\ ((type = JS.JString "EnvelopedVerifiableCredential"
         /\ decodeEnvelopedCredential document = inr (credential decoded)
         /\ credentialType decoded = enveloped
         /\ originalEnvelopedCredential decoded = Some document)
        \/ (type <> JS.JString "EnvelopedVerifiableCredential"
            /\ isArrayOrString type = true
            /\ credential decoded = document
            /\ credentialType decoded = embedded
            /\ originalEnvelopedCredential decoded = None))
    /\ validateCredentialSubject (credential decoded)
       = Next (bitstringList decoded, encodedList)
    /\ decodeStatusList encodedList = inr (inr (decodedBits decoded))
    /\ totalBits decoded = lengthOf (decodedBits decoded) * 8.
Proof.
  unfold fetchStatusList, tryCatch.
  destruct (fetch url) as [fetchError|response] eqn:Hfetch;
    [destruct (isCorsFailure fetchError); discriminate|].
  destruct (Http.ok response) eqn:Hok; cbn [negb]; [|discriminate].
  destruct (Http.json response) as [|document] eqn:Hjson; [discriminate|].
  destruct (JS.getProp document "type") as [|type] eqn:Htype;
    cbn [call bind]; [discriminate|].
  destruct (JS.truthy type) eqn:Htruthy; cbn [negb]; [|discriminate].
  destruct (JS.strictEqString type "EnvelopedVerifiableCredential") eqn:Henv.
  - apply strictEqString_true in Henv.
    destruct (decodeEnvelopedCredential document) as [|unwrapped] eqn:Hun;
      cbn [bind]; [discriminate|].
    destruct (validateCredentialSubject unwrapped)
      as [| |[subject encodedList]] eqn:Hvalid; cbn [bind]; try discriminate.
    destruct (decodeStatusList encodedList) as [|[|bits]] eqn:Hdecode;
      cbn [call bind]; try discriminate.
    intros [= <-]. exists response, document, type, encodedList.
    cbn. repeat split; auto.
  - assert (Hne : type <> JS.JString "EnvelopedVerifiableCredential").
    { intros ->. discriminate Henv. }
    destruct (isArrayOrString type) eqn:Harr; cbn [bind];
      [|destruct (JS.toString type); discriminate].
    destruct (validateCredentialSubject document)
      as [| |[subject encodedList]] eqn:Hvalid; cbn [bind]; try discriminate.
    destruct (decodeStatusList encodedList) as [|[|bits]] eqn:Hdecode;
      cbn [call bind]; try discriminate.
    intros [= <-]. exists response, document, type, encodedList.
    cbn. repeat split; auto. right. repeat split; auto.
Qed.

(** A decoded list remembers where it came from: it is tagged [enveloped]
    exactly when the fetched document's [type] is the string
    [EnvelopedVerifiableCredential], and then the fetched wrapper is kept
    beside the credential unwrapped from it; otherwise the credential is the
    fetched document itself and no wrapper is kept. *)
Theorem fetchStatusList_origin (url : string) (decoded : DecodedStatusList) :
  fetchStatusList url = inr decoded ->
  exists response document,
    fetch url = inr response
    /\ Http.json response = inr document
    /\ ((JS.getProp document "type"
         = inr (JS.JString "EnvelopedVerifiableCredential")
         /\ credentialType decoded = enveloped
         /\ originalEnvelopedCredential decoded = Some document
         /\ decodeEnvelopedCredential document = inr (credential decoded))
        \/ (JS.getProp document "type"
            <> inr (JS.JString "EnvelopedVerifiableCredential")
            /\ credentialType decoded = embedded
            /\ originalEnvelopedCredential decoded = None
            /\ credential decoded = document)).
Proof.
  intros H. apply fetchStatusList_inversion in H.
  destruct H as (response & document & type & encodedList & Hfetch & _
                 & Hjson & Htype & _ & Horigin & _).
  exists response, document. repeat split; try assumption.
  destruct Horigin as [(-> & Hun & Hkind & Horig)
                      |(Hne & _ & Hcred & Hkind & Horig)].
  - left. repeat split; assumption.
  - right. repeat split; try assumption.
    rewrite Htype. intros [= ->]. now apply Hne.
Qed.

End Fetching.

(** ** After the fetch *)

Lemma validate_next_inversion
  (statusListCredential subject encodedList : JS.JSValue) :
  BitstringService.validateCredentialSubject statusListCredential
  = Next (subject, encodedList) ->
  JS.getProp statusListCredential "credentialSubject" = inr subject
  /\ JS.truthy subject = true
  /\ JS.getProp subject "type" = inr (JS.JString "BitstringStatusList")
  /\ JS.getProp subject "encodedList" = inr encodedList
  /\ JS.truthy encodedList = true.
Proof.
  unfold BitstringService.validateCredentialSubject.
  destruct (JS.getProp statusListCredential "credentialSubject")
    as [|found] eqn:Hs; cbn [call bind]; [discriminate|].
  destruct (JS.truthy found) eqn:Ht; cbn [negb]; [|discriminate].
  destruct (JS.getProp found "type") as [|type] eqn:Htype;
    cbn [call bind]; [discriminate|].
  destruct (JS.strictEqString type "BitstringStatusList") eqn:E;
    cbn [negb]; [|destruct (JS.toString type); discriminate].
  apply strictEqString_true in E. subst type.
  destruct (JS.getProp found "encodedList") as [|enc] eqn:Henc;
    cbn [call bind]; [discriminate|].
  destruct (JS.truthy enc) eqn:Hte; cbn [negb]; [|discriminate].
  intros [= <- <-]. repeat split; assumption.
Qed.

Lemma validate_error_codes (statusListCredential : JS.JSValue)
  (e : DetailedError) :
  BitstringService.validateCredentialSubject statusListCredential
  = Returned e ->
  (code e = MISSING_BITSTRING_LIST
   /\ exists subject,
        JS.getProp statusListCredential "credentialSubject" = inr subject
        /\ JS.truthy subject = false)
  \/ code e = INVALID_CREDENTIAL_FORMAT.
Proof.
  unfold BitstringService.validateCredentialSubject.
  destruct (JS.getProp statusListCredential "credentialSubject")
    as [|found] eqn:Hs; cbn [call bind]; [discriminate|].
  destruct (JS.truthy found) eqn:Ht; cbn [negb].
  2:{ intros [= <-]. left. split; [reflexivity|]. now exists found. }
  destruct (JS.getProp found "type") as [|type];
    cbn [call bind]; [discriminate|].
  destruct (JS.strictEqString type "BitstringStatusList"); cbn [negb].
  2:{ destruct (JS.toString type); cbn [call bind]; [discriminate|].
      intros [= <-]. right. reflexivity. }
  destruct (JS.getProp found "encodedList") as [|enc];
    cbn [call bind]; [discriminate|].
  destruct (JS.truthy enc); cbn [negb]; [discriminate|].
  intros [= <-]. right. reflexivity.
Qed.

(** Of the values that are neither strings nor arrays, only an object
    with a [toString] field of its own has no string form. *)
Lemma toString_scalar_throws (v : JS.JSValue) (thrown : JS.Thrown) :
  BitstringService.isArrayOrString v = false ->
  JS.toString v = inl thrown ->
  exists fields,
    v = JS.JObject fields
    /\ JS.hasOwn "toString" fields = true
    /\ thrown = JS.ThrownTypeError "Cannot convert object to primitive value".
Proof.
  destruct v as [| |[|]| | | |fields]; cbn [JS.toString];
    try discriminate.
  intros _. destruct (JS.hasOwn "toString" fields) eqn:Hown;
    [|discriminate].
  intros [= <-]. exists fields. repeat split. exact Hown.
Qed.

Lemma getBitStatus_returns_iff (B : Uint8Array) (i : Z) :
  (exists b, BitstringService.getBitStatus B i = inr b)
  <-> 0 <= i <= 8 * lengthOf B - 1.
Proof.
  split.
  - intros (b & Hb). unfold BitstringService.getBitStatus in Hb.
    destruct (Z.ltb_spec i 0); [discriminate|].
    cbv zeta in Hb.
    destruct (Z.geb_spec (JS.floorDiv8 i) (lengthOf B)); [discriminate|].
    unfold JS.floorDiv8 in *.
    pose proof (Z.div_mod i 8 ltac:(lia)).
    pose proof (Z.mod_pos_bound i 8 ltac:(lia)). lia.
  - intros Hi. eexists. apply getBitStatus_specBit, Hi.
Qed.

Lemma decode_error_code_set {RT : Runtime} (encodedList : JS.JSValue)
  (e : DetailedError) :
  BitstringService.decodeStatusList encodedList = inr (inl e) ->
  In (code e) [BASE64_DECODE_ERROR; GZIP_DECODE_ERROR; UNKNOWN_ERROR].
Proof.
  unfold BitstringService.decodeStatusList.
  destruct (BitstringService.decodeStatusList_base64 encodedList)
    as [t|e0|compressed] eqn:Hb; cbn [bind].
  - destruct encodedList; try discriminate. intros [= <-]. cbn. auto.
  - intros [= <-]. rewrite (base64_error_code _ _ Hb). cbn. auto.
  - destruct (BitstringService.decodeStatusList_decompress compressed)
      as [t|e1|d] eqn:Hd.
    + destruct encodedList; try discriminate. intros [= <-]. cbn. auto.
    + intros [= <-]. rewrite (decompress_error_code _ _ Hd). cbn. auto.
    + discriminate.
Qed.

Section AfterFetch.
Context {RT : Runtime}.
Import BitstringService.

(** The document's [type] decides what is tried: a body that is [null]
    ends in the [catch] block, a missing or falsy [type] is a
    [MISSING_CREDENTIAL_TYPE], and a [type] that is neither a string nor an
    array is an [UNSUPPORTED_CREDENTIAL_TYPE] whose details print it when
    it has a string form.  When it has none (an object with a [toString]
    field of its own, and only then) the template literal throws and the
    answer is the [UNKNOWN_ERROR] of the [catch] block, with the message of
    the [TypeError] as details. *)
Theorem fetchStatusList_type_dispatch (url : string)
  (response : Http.Response) (document : JS.JSValue) :
  fetch url = inr response ->
  Http.ok response = true ->
  Http.json response = inr document ->
  (document = JS.JNull ->
   exists e, fetchStatusList url = inl e /\ code e = UNKNOWN_ERROR)
  /\ (forall type,
        JS.getProp document "type" = inr type ->
        JS.truthy type = false ->
        exists e,
          fetchStatusList url = inl e /\ code e = MISSING_CREDENTIAL_TYPE)
  /\ (forall type found,
        JS.getProp document "type" = inr type ->
        JS.truthy type = true ->
        isArrayOrString type = false ->
        JS.toString type = inr found ->
        exists e,
          fetchStatusList url = inl e
          /\ code e = UNSUPPORTED_CREDENTIAL_TYPE
          /\ exists d, details e = Some d
                       /\ JS.includes d found = true)
  /\ (forall type thrown,
        JS.getProp document "type" = inr type ->
        JS.truthy type = true ->
        isArrayOrString type = false ->
        JS.toString type = inl thrown ->
        exists e,
          fetchStatusList url = inl e
          /\ code e = UNKNOWN_ERROR
          /\ message e = "An unexpected error occurred"
          /\ details e = Some "Cannot convert object to primitive value")
  /\ (forall type,
        isArrayOrString type = false ->
        (exists thrown, JS.toString type = inl thrown)
        <-> exists fields,
              type = JS.JObject fields
              /\ JS.hasOwn "toString" fields = true).
Proof.
  intros Hfetch Hok Hjson. unfold fetchStatusList.
  rewrite Hfetch, Hok, Hjson. cbn [negb].
  repeat apply conj.
  - intros ->. cbn. eexists. split; reflexivity.
  - intros type Htype Hfalsy. rewrite Htype. cbn [call bind].
    rewrite Hfalsy. cbn [negb tryCatch]. eexists. split; reflexivity.
  - intros type found Htype Htruthy Hkind Hfound.
    rewrite Htype. cbn [call bind].
    rewrite Htruthy. cbn [negb].
    replace (JS.strictEqString type "EnvelopedVerifiableCredential")
      with false by (destruct type; try reflexivity; discriminate).
    rewrite Hkind, Hfound. cbn [call bind tryCatch].
    eexists. split; [reflexivity|]. split; [reflexivity|].
    eexists. split; [reflexivity|].
    do 2 apply includes_skip. apply (includes_app EmptyString).
  - intros type thrown Htype Htruthy Hkind Hthrown.
    rewrite Htype. cbn [call bind].
    rewrite Htruthy. cbn [negb].
    replace (JS.strictEqString type "EnvelopedVerifiableCredential")
      with false by (destruct type; try reflexivity; discriminate).
    rewrite Hkind, Hthrown. cbn [call bind tryCatch].
    eexists. split; [reflexivity|]. split; [reflexivity|].
    split; [reflexivity|].
    cbn [details]. f_equal.
    destruct (toString_scalar_throws type thrown Hkind Hthrown)
      as (_ & _ & _ & ->).
    reflexivity.
  - intros type Hkind. split.
    + intros (thrown & Hthrown).
      destruct (toString_scalar_throws type thrown Hkind Hthrown)
        as (fields & -> & Hown & _).
      exists fields. split; [reflexivity|exact Hown].
    + intros (fields & -> & Hown). cbn [JS.toString]. rewrite Hown.
      eexists. reflexivity.
Qed.

(** For an enveloped credential a missing subject is never reported as
    [MISSING_BITSTRING_LIST]: the unwrapper has already refused a payload
    without one. *)
Theorem fetchStatusList_enveloped_subject (url : string)
  (response : Http.Response) (document : JS.JSValue) (e : DetailedError) :
  fetch url = inr response ->
  Http.ok response = true ->
  Http.json response = inr document ->
  JS.getProp document "type"
  = inr (JS.JString "EnvelopedVerifiableCredential") ->
  fetchStatusList url = inl e ->
  code e <> MISSING_BITSTRING_LIST.
Proof.
  intros Hfetch Hok Hjson Htype. unfold fetchStatusList.
  rewrite Hfetch, Hok, Hjson. cbn [negb]. rewrite Htype.
  cbn [call bind JS.truthy JS.strictEqString String.eqb Ascii.eqb
       Bool.eqb negb].
  destruct (decodeEnvelopedCredential document) as [e0|unwrapped] eqn:Hun;
    cbn [bind tryCatch].
  - intros [= <-].
    destruct (unwrap_error_code_set _ _ Hun) as [Hin|[Hc _]];
      [|rewrite Hc; discriminate].
    cbn [In] in Hin.
    repeat destruct Hin as [Hin|Hin]; try (rewrite <- Hin; discriminate).
    contradiction.
  - destruct (unwrap_success_inversion _ _ Hun)
      as ((subject & Hsub & Htruthy) & _).
    destruct (validateCredentialSubject unwrapped)
      as [t|e1|[found encodedList]] eqn:Hvalid; cbn [bind tryCatch].
    + intros [= <-]. discriminate.
    + intros [= <-].
      destruct (validate_error_codes _ _ Hvalid)
        as [(_ & found & Hfound & Hfalsy)|Hc];
        [|rewrite Hc; discriminate].
      rewrite Hsub in Hfound. injection Hfound as <-. congruence.
    + destruct (decodeStatusList encodedList) as [t|[e2|bits]] eqn:Hdec;
        cbn [call bind tryCatch]; [intros [= <-]; discriminate| |discriminate].
      intros [= <-]. pose proof (decode_error_code_set _ _ Hdec) as Hin.
      cbn [In] in Hin.
      repeat destruct Hin as [Hin|Hin]; try (rewrite <- Hin; discriminate).
      contradiction.
Qed.

(** The indices a fetched list answers are exactly [0 .. totalBits - 1]. *)
Theorem fetchStatusList_indices (url : string) (decoded : DecodedStatusList)
  (i : Z) :
  fetchStatusList url = inr decoded ->
  (exists b, getBitStatus (decodedBits decoded) i = inr b)
  <-> 0 <= i < totalBits decoded.
Proof.
  intros H. apply fetchStatusList_inversion in H.
  destruct H as (response & document & type & encodedList & _ & _ & _ & _
                 & _ & _ & _ & _ & Hbits).
  rewrite getBitStatus_returns_iff, Hbits. lia.
Qed.

(** [formatCredentialInfo] does not throw on a fetched list; it reports
    the tag and the bit count of the list, the purpose its subject declares
    and the issuer of the credential. *)
Theorem formatCredentialInfo_fetched (url : string)
  (decoded : DecodedStatusList) :
  fetchStatusList url = inr decoded ->
  exists info,
    Info.formatCredentialInfo decoded = inr info
    /\ Info.credentialType info = credentialType decoded
    /\ Info.totalBits info = lengthOf (decodedBits decoded) * 8
    /\ statusPurpose decoded = inr (Info.statusPurpose info)
    /\ JS.getProp (credential decoded) "issuer" = inr (Info.issuer info)
    /\ JS.getProp (bitstringList decoded) "id" = inr (Info.id info).
Proof.
  intros H. apply fetchStatusList_inversion in H.
  destruct H as (response & document & type & encodedList & _ & _ & _ & _
                 & _ & _ & Hvalid & _ & Hbits).
  apply validate_next_inversion in Hvalid.
  destruct Hvalid as (Hsub & Htruthy & _).
  assert (Hcred : forall k, exists x, JS.getProp (credential decoded) k = inr x).
  { intros k. destruct (credential decoded); try discriminate Hsub;
      eexists; reflexivity. }
  unfold Info.formatCredentialInfo, statusPurpose. cbv zeta.
  destruct (getProp_truthy _ "id" Htruthy) as (id & ->).
  destruct (getProp_truthy _ "statusPurpose" Htruthy) as (purpose & ->).
  destruct (getProp_truthy _ "validFrom" Htruthy) as (from & ->).
  destruct (getProp_truthy _ "validUntil" Htruthy) as (until_ & ->).
  destruct (Hcred "issuer") as (issuer & ->).
  cbn [ThrowingDecoder.andThen].
  eexists. split; [reflexivity|]. cbn. repeat split; auto.
Qed.

End AfterFetch.

(** ** More on the bit accessor *)

Lemma indicesFrom_app (start : Z) (n m : nat) :
  indicesFrom start (n + m)
  = (indicesFrom start n ++ indicesFrom (start + Z.of_nat n) m)%list.
Proof.
  revert start. induction n as [|n IH]; intros start.
  - cbn [Nat.add]. replace (start + Z.of_nat 0) with start by lia.
    reflexivity.
  - cbn [Nat.add]. rewrite !indicesFrom_S, IH. cbn [app].
    do 3 f_equal. lia.
Qed.

Lemma getBitRange_value (B : Uint8Array) (startIndex endIndex : Z) :
  0 <= startIndex -> startIndex <= endIndex ->
  endIndex <= 8 * lengthOf B - 1 ->
  endIndex - startIndex + 1 <= 10000 ->
  BitstringService.getBitRange B startIndex endIndex
  = inr (map (entryAt B)
           (indicesFrom startIndex (Z.to_nat (endIndex - startIndex + 1)))).
Proof.
  intros Hs Hse He Hsize. unfold BitstringService.getBitRange.
  destruct (Z.ltb_spec startIndex 0); [lia|].
  destruct (Z.ltb_spec endIndex startIndex); [lia|].
  cbv zeta.
  destruct (Z.gtb_spec startIndex (lengthOf B * 8 - 1)); [lia|].
  destruct (Z.gtb_spec endIndex (lengthOf B * 8 - 1)); [lia|].
  destruct (Z.gtb_spec (endIndex - startIndex + 1) 10000); [lia|].
  rewrite (getBitRange_loop_in_range B endIndex He
             (Z.to_nat (endIndex - startIndex + 1)) startIndex [])
    by lia.
  reflexivity.
Qed.

Lemma getBitRange_inversion (B : Uint8Array) (startIndex endIndex : Z)
  (entries : list BitStatus) :
  BitstringService.getBitRange B startIndex endIndex = inr entries ->
  0 <= startIndex /\ startIndex <= endIndex
  /\ endIndex <= 8 * lengthOf B - 1
  /\ endIndex - startIndex + 1 <= 10000
  /\ entries
     = map (entryAt B)
         (indicesFrom startIndex (Z.to_nat (endIndex - startIndex + 1))).
Proof.
  intros H.
  assert (Hrange : 0 <= startIndex /\ startIndex <= endIndex
                   /\ endIndex <= 8 * lengthOf B - 1
                   /\ endIndex - startIndex + 1 <= 10000).
  { unfold BitstringService.getBitRange in H.
    destruct (Z.ltb_spec startIndex 0); [discriminate|].
    destruct (Z.ltb_spec endIndex startIndex); [discriminate|].
    cbv zeta in H.
    destruct (Z.gtb_spec startIndex (lengthOf B * 8 - 1)); [discriminate|].
    destruct (Z.gtb_spec endIndex (lengthOf B * 8 - 1)); [discriminate|].
    destruct (Z.gtb_spec (endIndex - startIndex + 1) 10000);
      [discriminate|].
    lia. }
  destruct Hrange as (Hs & Hse & He & Hsize).
  rewrite getBitRange_value in H by assumption.
  injection H as <-. repeat split; assumption.
Qed.

(** Two adjoining ranges put together are the range that spans both. *)
Theorem getBitRange_concat (B : Uint8Array) (startIndex mid endIndex : Z)
  (front back : list BitStatus) :
  BitstringService.getBitRange B startIndex mid = inr front ->
  BitstringService.getBitRange B (mid + 1) endIndex = inr back ->
  endIndex - startIndex + 1 <= 10000 ->
  BitstringService.getBitRange B startIndex endIndex
  = inr (front ++ back)%list.
Proof.
  intros Hfront Hback Hsize.
  apply getBitRange_inversion in Hfront, Hback.
  destruct Hfront as (Hs & Hsm & _ & _ & ->).
  destruct Hback as (_ & Hme & He & _ & ->).
  rewrite getBitRange_value by lia.
  replace (Z.to_nat (endIndex - startIndex + 1))
    with (Z.to_nat (mid - startIndex + 1)
          + Z.to_nat (endIndex - (mid + 1) + 1))%nat by lia.
  rewrite indicesFrom_app, map_app.
  replace (startIndex + Z.of_nat (Z.to_nat (mid - startIndex + 1)))
    with (mid + 1) by lia.
  reflexivity.
Qed.

Lemma byteOf_app (B B' : Uint8Array) (k : Z) :
  0 <= k < lengthOf B -> byteOf (B ++ B')%list k = byteOf B k.
Proof.
  unfold byteOf, lengthOf. intros Hk.
  rewrite map_app. apply app_nth1. rewrite length_map. lia.
Qed.

Lemma specBit_app (B B' : Uint8Array) (i : Z) :
  0 <= i <= 8 * lengthOf B - 1 -> specBit (B ++ B')%list i = specBit B i.
Proof.
  intros Hi. unfold specBit. rewrite byteOf_app; [reflexivity|].
  pose proof (Z.div_mod i 8 ltac:(lia)).
  pose proof (Z.mod_pos_bound i 8 ltac:(lia)). lia.
Qed.

Lemma lengthOf_app (B B' : Uint8Array) :
  lengthOf (B ++ B')%list = lengthOf B + lengthOf B'.
Proof. unfold lengthOf. rewrite length_app. lia. Qed.

(** Bytes appended to a list change no answer inside the old list: a bit
    and a range that the shorter list answers are answered alike by the
    longer one. *)
Theorem accessor_stable_under_append (B B' : Uint8Array) :
  (forall i b,
     BitstringService.getBitStatus B i = inr b ->
     BitstringService.getBitStatus (B ++ B')%list i = inr b)
  /\ (forall startIndex endIndex entries,
        BitstringService.getBitRange B startIndex endIndex = inr entries ->
        BitstringService.getBitRange (B ++ B')%list startIndex endIndex
        = inr entries).
Proof.
  assert (Hlen : 0 <= lengthOf B') by (unfold lengthOf; lia).
  split.
  - intros i b Hb.
    assert (Hi : 0 <= i <= 8 * lengthOf B - 1)
      by (apply getBitStatus_returns_iff; now exists b).
    rewrite getBitStatus_specBit in Hb by exact Hi. injection Hb as <-.
    rewrite getBitStatus_specBit by (rewrite lengthOf_app; lia).
    now rewrite specBit_app.
  - intros startIndex endIndex entries H.
    apply getBitRange_inversion in H.
    destruct H as (Hs & Hse & He & Hsize & ->).
    rewrite getBitRange_value by (try rewrite lengthOf_app; lia).
    f_equal. apply map_ext_in. intros k Hk.
    apply indicesFrom_bounds in Hk. unfold entryAt.
    rewrite specBit_app by lia. reflexivity.
Qed.

(** Outside the array the throwing revision throws only on the high side,
    with the maximum index in the message; a negative index reads past the
    array and is answered [false]. *)
Theorem throwing_getBitStatus_out_of_range (B : Uint8Array) (i : Z) :
  (8 * lengthOf B <= i ->
   exists msg,
     ThrowingService.getBitStatus B i = inl (JS.ThrownError msg)
     /\ JS.includes msg (JS.numberToString (8 * lengthOf B - 1)) = true)
  /\ (i < 0 -> ThrowingService.getBitStatus B i = inr false).
Proof.
  split; [|apply throwing_getBitStatus_negative].
  intros Hi. unfold ThrowingService.getBitStatus.
  pose proof (floorDiv8_high i (lengthOf B) Hi).
  destruct (Z.geb_spec (JS.floorDiv8 i) (lengthOf B)); [|lia].
  replace (lengthOf B * 8 - 1) with (8 * lengthOf B - 1) by lia.
  eexists. split; [reflexivity|].
  do 3 apply includes_skip. apply (includes_app EmptyString).
Qed.

(** The throwing revision answers every range the error-returning one
    answers, with the same entries, and has no cap: a range inside the array
    is answered whatever its size, where the other revision refuses more
    than 10000 indices. *)
Theorem getBitRange_revisions (B : Uint8Array) (startIndex endIndex : Z) :
  (forall entries,
     BitstringService.getBitRange B startIndex endIndex = inr entries ->
     ThrowingService.getBitRange B startIndex endIndex = inr entries)
  /\ (0 <= startIndex -> startIndex <= endIndex ->
      endIndex <= 8 * lengthOf B - 1 ->
      endIndex - startIndex + 1 > 10000 ->
      (exists entries,
         ThrowingService.getBitRange B startIndex endIndex = inr entries
         /\ Z.of_nat (List.length entries) = endIndex - startIndex + 1)
      /\ exists e,
           BitstringService.getBitRange B startIndex endIndex = inl e
           /\ code e = INVALID_BIT_RANGE
           /\ message e = "Range too large").
Proof.
  split.
  - intros entries H. apply getBitRange_inversion in H.
    destruct H as (Hs & Hse & He & _ & ->).
    apply throwing_getBitRange_in_range; assumption.
  - intros Hs Hse He Hsize. split.
    + eexists. split; [apply throwing_getBitRange_in_range; assumption|].
      rewrite length_map, indicesFrom_length. lia.
    + unfold BitstringService.getBitRange.
      destruct (Z.ltb_spec startIndex 0); [lia|].
      destruct (Z.ltb_spec endIndex startIndex); [lia|].
      cbv zeta.
      destruct (Z.gtb_spec startIndex (lengthOf B * 8 - 1)); [lia|].
      destruct (Z.gtb_spec endIndex (lengthOf B * 8 - 1)); [lia|].
      destruct (Z.gtb_spec (endIndex - startIndex + 1) 10000); [|lia].
      eexists. repeat split.
Qed.

(** ** The two revisions of the decoder *)

Lemma removeFirst_at_start (p rest : string) :
  ThrowingDecoder.removeFirst p (p ++ rest) = rest.
Proof.
  assert (Hsub : forall q r, JS.substringFrom (String.length q) (q ++ r) = r).
  { induction q as [|c q IH]; intros r; [reflexivity|]. cbn. apply IH. }
  destruct (p ++ rest) eqn:E; cbn [ThrowingDecoder.removeFirst];
    rewrite <- E, prefix_app, Hsub; reflexivity.
Qed.

Lemma removeFirst_absent (p s : string) :
  JS.includes s p = false -> ThrowingDecoder.removeFirst p s = s.
Proof.
  induction s as [|c s IH]; cbn [JS.includes ThrowingDecoder.removeFirst];
    intros H; apply orb_false_elim in H; destruct H as [Hp Hrest];
    rewrite Hp; [reflexivity|].
  f_equal. apply IH. exact Hrest.
Qed.

Lemma includes_from_second (s p : string) (c : ascii) (s' : string) :
  s = String c s' -> String.prefix p s = false ->
  JS.includes s' p = false -> JS.includes s p = false.
Proof.
  intros -> Hp Hrest. cbn [JS.includes]. rewrite Hp, Hrest. reflexivity.
Qed.

Section Revisions.
Context {RT : Runtime}.

Lemma decodeStatusList_same_success (encodedList : JS.JSValue)
  (bytes : Uint8Array) :
  BitstringService.decodeStatusList encodedList = inr (inr bytes)
  <-> ThrowingDecoder.decodeStatusList encodedList = inr bytes.
Proof.
  unfold BitstringService.decodeStatusList, ThrowingDecoder.decodeStatusList,
    ThrowingDecoder.decodeStatusList_try,
    BitstringService.decodeStatusList_base64,
    BitstringService.decodeStatusList_decompress.
  cbv zeta.
  assert (Hnone : forall t : JS.Thrown,
             match encodedList with
             | JS.JString _ =>
                 inl (JS.ThrownError
                        ("Failed to decode status list: "
                         ++ JS.messageOr "Unknown error" t))
             | _ => inl (ThrowingDecoder.noMethod "encodedList" "substring"
                           encodedList)
             end <> (inr bytes : JS.Completion Uint8Array))
    by (intros t; destruct encodedList; discriminate).
  destruct (base64url_toBuffer encodedList) as [t|compressed];
    cbn [bind ThrowingDecoder.andThen].
  - destruct encodedList;
      cbn [bind tryCatch ThrowingDecoder.andThen ThrowingDecoder.noMethod];
      try (split; discriminate).
    destruct (atob _) as [|binaryString];
      cbn [bind tryCatch ThrowingDecoder.andThen];
      [split; discriminate|].
    destruct (BitstringService.hasGzipMagic _);
      [destruct (inflate _) | destruct (inflateRaw _)];
      try rewrite newUint8Array_copies; cbn [tryCatch];
      split; intros H; try discriminate H; injection H as <-; reflexivity.
  - destruct (BitstringService.hasGzipMagic _);
      [destruct (inflate _) as [t|] | destruct (inflateRaw _) as [t|]];
      try rewrite newUint8Array_copies; cbn [tryCatch];
      split; intros H; try discriminate H;
      try (injection H as <-; reflexivity).
    now elim (Hnone t).
Qed.

End Revisions.

Section RevisionsAgree.
Context {RT : Runtime}.

(** The two revisions of [decodeStatusList] succeed on the same inputs
    with the same bytes; on a string, where one returns an error value the
    other throws an [Error] whose message begins with
    [Failed to decode status list: ]. *)
Theorem decodeStatusList_revisions (encodedList : JS.JSValue) :
  (forall bytes,
     BitstringService.decodeStatusList encodedList = inr (inr bytes)
     <-> ThrowingDecoder.decodeStatusList encodedList = inr bytes)
  /\ (forall s e,
        encodedList = JS.JString s ->
        BitstringService.decodeStatusList encodedList = inr (inl e) ->
        exists cause,
          ThrowingDecoder.decodeStatusList encodedList
          = inl (JS.ThrownError ("Failed to decode status list: " ++ cause))).
Proof.
  split; [intros bytes; apply decodeStatusList_same_success|].
  intros s e -> Hfail.
  destruct (ThrowingDecoder.decodeStatusList (JS.JString s))
    as [t|bytes] eqn:Hthrow.
  - unfold ThrowingDecoder.decodeStatusList in Hthrow.
    destruct (ThrowingDecoder.decodeStatusList_try (JS.JString s));
      [|discriminate].
    injection Hthrow as <-. eexists. reflexivity.
  - apply decodeStatusList_same_success in Hthrow. congruence.
Qed.

Lemma token_inversion (jwtToken : string) (credentialData : JS.JSValue) :
  BitstringService.decodeEnvelopedCredential_token jwtToken
  = Next credentialData ->
  List.length (JS.split "." jwtToken) = 3%nat
  /\ exists decodedPayload,
       let payload := nth 1 (JS.split "." jwtToken) EmptyString in
       atob (JS.replaceAll "_" "/"
               (JS.replaceAll "-" "+"
                  (payload
                   ++ JS.repeat "="
                        (Z.to_nat
                           (JS.rem (4 - JS.rem (JS.strlen payload) 4) 4)))))
       = inr decodedPayload
       /\ JSON_parse decodedPayload = inr credentialData.
Proof.
  unfold BitstringService.decodeEnvelopedCredential_token.
  destruct (String.eqb jwtToken EmptyString); [discriminate|].
  cbv zeta.
  destruct (Z.eqb_spec (Z.of_nat (List.length (JS.split "." jwtToken))) 3)
    as [Hlen|]; cbn [negb]; [|discriminate].
  destruct (String.eqb (nth 1 (JS.split "." jwtToken) EmptyString)
              EmptyString); [discriminate|].
  destruct (atob _) as [|decodedPayload] eqn:Hatob; [discriminate|].
  destruct (JSON_parse decodedPayload) as [|data] eqn:Hjson; [discriminate|].
  destruct (JS.getProp data "credentialSubject") as [|subject];
    cbn [call bind]; [discriminate|].
  destruct (JS.truthy subject); cbn [negb]; [|discriminate].
  intros [= <-]. split; [lia|].
  exists decodedPayload. cbv zeta. split; [reflexivity | assumption].
Qed.

(** What the throwing revision makes of the [id]: with the [vc-ld+jwt]
    prefix in front the prefix goes; with another recognised prefix, and the
    [vc-ld+jwt] text nowhere after the first character, nothing goes. *)
Lemma throwing_token (prefix jwtToken : string) :
  In prefix BitstringService.possiblePrefixes ->
  JS.includes (JS.substringFrom 1 (prefix ++ jwtToken))
    "data:application/vc-ld+jwt," = false ->
  ThrowingDecoder.removeFirst "data:application/vc-ld+jwt,"
    (prefix ++ jwtToken) = jwtToken
  \/ ThrowingDecoder.removeFirst "data:application/vc-ld+jwt,"
       (prefix ++ jwtToken) = prefix ++ jwtToken.
Proof.
  intros Hin Habsent.
  unfold BitstringService.possiblePrefixes in Hin. cbn [In] in Hin.
  destruct Hin as [<-|[<-|[<-|[<-|[]]]]].
  - right. apply removeFirst_absent.
    eapply includes_from_second; [reflexivity | reflexivity | exact Habsent].
  - left. apply removeFirst_at_start.
  - right. apply removeFirst_absent.
    eapply includes_from_second; [reflexivity | reflexivity | exact Habsent].
  - right. apply removeFirst_absent.
    eapply includes_from_second; [reflexivity | reflexivity | exact Habsent].
Qed.

Lemma unwrap_revisions (envelopedCred credentialData : JS.JSValue)
  (id : string) :
  BitstringService.decodeEnvelopedCredential envelopedCred
  = inr credentialData ->
  JS.getProp envelopedCred "id" = inr (JS.JString id) ->
  JS.includes (JS.substringFrom 1 id) "data:application/vc-ld+jwt," = false ->
  ThrowingDecoder.decodeEnvelopedCredential envelopedCred
  = inr credentialData.
Proof.
  intros Hok Hid Habsent.
  destruct (unwrap_success_inversion _ _ Hok)
    as (_ & id' & prefix & jwtToken & Hid' & Hin & Hsplit & Htoken).
  rewrite Hid in Hid'. injection Hid' as <-. subst id.
  destruct (token_inversion _ _ Htoken)
    as (Hlen & decodedPayload & Hatob & Hjson).
  cbv zeta in Hatob.
  assert (Hparts :
    exists token',
      ThrowingDecoder.removeFirst "data:application/vc-ld+jwt,"
        (prefix ++ jwtToken) = token'
      /\ List.length (JS.split "." token') = 3%nat
      /\ nth 1 (JS.split "." token') EmptyString
         = nth 1 (JS.split "." jwtToken) EmptyString).
  { destruct (throwing_token prefix jwtToken Hin Habsent) as [->| ->].
    - exists jwtToken. repeat split; assumption.
    - exists (prefix ++ jwtToken). split; [reflexivity|].
      assert (Hdotless : occurrences "." prefix = O).
      { unfold BitstringService.possiblePrefixes in Hin. cbn [In] in Hin.
        destruct Hin as [<-|[<-|[<-|[<-|[]]]]]; reflexivity. }
      rewrite (split_prepend "." prefix jwtToken Hdotless).
      destruct (JS.split "." jwtToken) as [|h t]; [discriminate Hlen|].
      split; [exact Hlen | reflexivity]. }
  destruct Hparts as (token' & Hremove & Hlen' & Hpayload).
  unfold ThrowingDecoder.decodeEnvelopedCredential,
    ThrowingDecoder.decodeEnvelopedCredential_try.
  rewrite Hid. cbn [ThrowingDecoder.andThen]. rewrite Hremove.
  cbv zeta. rewrite Hlen', Hpayload. cbn [Z.of_nat Z.eqb negb Pos.eqb
    Pos.of_succ_nat Pos.succ].
  rewrite Hatob. cbn [ThrowingDecoder.andThen]. rewrite Hjson.
  reflexivity.
Qed.

(** Whatever credential the error-returning revision unwraps, the throwing
    revision unwraps too, as long as the text [data:application/vc-ld+jwt,]
    does not occur in the [id] after its first character (a token of
    Base64URL segments and dots cannot contain it). *)
Theorem decodeEnvelopedCredential_revisions
  (envelopedCred credentialData : JS.JSValue) (id : string) :
  BitstringService.decodeEnvelopedCredential envelopedCred
  = inr credentialData ->
  JS.getProp envelopedCred "id" = inr (JS.JString id) ->
  JS.includes (JS.substringFrom 1 id) "data:application/vc-ld+jwt," = false ->
  ThrowingDecoder.decodeEnvelopedCredential envelopedCred
  = inr credentialData.
Proof. exact (unwrap_revisions envelopedCred credentialData id). Qed.

End RevisionsAgree.

Section FetchRevisions.
Context {RT : Runtime}.

(** Whatever the error-returning [fetchStatusList] decodes, the throwing
    revision decodes to the same result, under the same proviso on the [id]
    of an enveloped credential. *)
Theorem fetchStatusList_revisions (url : string)
  (decoded : BitstringService.DecodedStatusList) :
  BitstringService.fetchStatusList url = inr decoded ->
  (forall wrapper id,
     BitstringService.originalEnvelopedCredential decoded = Some wrapper ->
     JS.getProp wrapper "id" = inr (JS.JString id) ->
     JS.includes (JS.substringFrom 1 id) "data:application/vc-ld+jwt,"
     = false) ->
  ThrowingDecoder.fetchStatusList url = inr decoded.
Proof.
  intros H Hid. apply fetchStatusList_inversion in H.
  destruct H as (response & document & type & encodedList & Hfetch & Hok
                 & Hjson & Htype & Htruthy & Horigin & Hvalid & Hdecode
                 & Hbits).
  apply validate_next_inversion in Hvalid.
  destruct Hvalid as (Hsub & Hsubject & Hsubtype & Henc & _).
  apply decodeStatusList_same_success in Hdecode.
  unfold ThrowingDecoder.fetchStatusList, ThrowingDecoder.fetchStatusList_try.
  rewrite Hfetch. cbn [ThrowingDecoder.andThen]. rewrite Hok. cbn [negb].
  rewrite Hjson. cbn [ThrowingDecoder.andThen].
  rewrite Htype. cbn [ThrowingDecoder.andThen].
  destruct decoded as [cred subject bits total kind original].
  cbn [BitstringService.credential BitstringService.bitstringList
       BitstringService.decodedBits BitstringService.totalBits
       BitstringService.credentialType
       BitstringService.originalEnvelopedCredential] in *.
  destruct Horigin as [(-> & Hun & -> & ->)|(Hne & _ & -> & -> & ->)].
  - destruct (unwrap_success_inversion _ _ Hun)
      as (_ & id & _ & _ & Hgetid & _).
    rewrite (unwrap_revisions document cred id Hun Hgetid
               (Hid document id eq_refl Hgetid)).
    cbn [JS.strictEqString String.eqb Ascii.eqb Bool.eqb
         ThrowingDecoder.andThen].
    rewrite Hsub. cbn [ThrowingDecoder.andThen]. rewrite Hsubject.
    cbn [negb]. rewrite Hsubtype.
    cbn [ThrowingDecoder.andThen JS.strictEqString String.eqb Ascii.eqb
         Bool.eqb negb].
    rewrite Henc. cbn [ThrowingDecoder.andThen]. rewrite Hdecode.
    cbn [ThrowingDecoder.andThen]. rewrite Hbits. reflexivity.
  - replace (JS.strictEqString type "EnvelopedVerifiableCredential")
      with false
      by (symmetry; destruct (JS.strictEqString type _) eqn:E;
          [apply strictEqString_true in E; contradiction | reflexivity]).
    cbn [ThrowingDecoder.andThen].
    rewrite Hsub. cbn [ThrowingDecoder.andThen]. rewrite Hsubject.
    cbn [negb]. rewrite Hsubtype.
    cbn [ThrowingDecoder.andThen JS.strictEqString String.eqb Ascii.eqb
         Bool.eqb negb].
    rewrite Henc. cbn [ThrowingDecoder.andThen]. rewrite Hdecode.
    cbn [ThrowingDecoder.andThen]. rewrite Hbits. reflexivity.
Qed.

(** A response that is not [ok] becomes the message
    [Failed to fetch status list: <status> <statusText>]. *)
Theorem throwing_fetchStatusList_http_error (url : string)
  (response : Http.Response) :
  fetch url = inr response ->
  Http.ok response = false ->
  ThrowingDecoder.fetchStatusList url
  = inl ("Failed to fetch status list: "
         ++ JS.numberToString (Http.status response) ++ " "
         ++ Http.statusText response).
Proof.
  intros Hfetch Hok.
  unfold ThrowingDecoder.fetchStatusList, ThrowingDecoder.fetchStatusList_try.
  rewrite Hfetch. cbn [ThrowingDecoder.andThen]. rewrite Hok. reflexivity.
Qed.

End FetchRevisions.

(** ** The page and the viewer *)

Section PageAndViewer.
Context {RT : Runtime}.

(** What each field of the page holds after the handler, read off its
    five resets, the [try] block, the [catch] block and [finally]. *)
Lemma handleFetchStatusList_loading
  (fetchStatusList : string -> JS.Completion Page.FetchResult)
  (url : string) (st : Page.State) :
  Page.loading (Page.handleFetchStatusList fetchStatusList url st) = false.
Proof. reflexivity. Qed.

Lemma handleFetchStatusList_url
  (fetchStatusList : string -> JS.Completion Page.FetchResult)
  (url : string) (st : Page.State) :
  Page.currentUrl (Page.handleFetchStatusList fetchStatusList url st) = url.
Proof.
  unfold Page.handleFetchStatusList, Page.applyResult. cbv zeta.
  destruct (fetchStatusList url) as [|[[] [d|] err [i|]]]; try reflexivity.
  cbn [Page.success Page.data Page.urlBitIndex].
  destruct (BitstringService.getBitStatus _ i); reflexivity.
Qed.

Lemma handleFetchStatusList_decoded
  (fetchStatusList : string -> JS.Completion Page.FetchResult)
  (url : string) (st : Page.State) :
  Page.decoded (Page.handleFetchStatusList fetchStatusList url st)
  = match fetchStatusList url with
    | inr result =>
        if Page.success result then Page.data result else None
    | inl _ => None
    end.
Proof.
  unfold Page.handleFetchStatusList, Page.applyResult. cbv zeta.
  destruct (fetchStatusList url) as [|[[] [d|] err [i|]]]; try reflexivity.
  cbn [Page.success Page.data Page.urlBitIndex].
  destruct (BitstringService.getBitStatus _ i); reflexivity.
Qed.

Lemma handleFetchStatusList_error
  (fetchStatusList : string -> JS.Completion Page.FetchResult)
  (url : string) (st : Page.State) :
  Page.error (Page.handleFetchStatusList fetchStatusList url st)
  = match fetchStatusList url with
    | inr result =>
        match Page.success result, Page.data result with
        | true, Some _ => None
        | _, _ =>
            Some match Page.resultError result with
                 | Some e => e
                 | None =>
                     createError UNKNOWN_ERROR
                       "Failed to fetch and decode status list"
                       (Some "An unexpected error occurred.") None None
                 end
        end
    | inl thrown => Some (Page.unexpected thrown)
    end.
Proof.
  unfold Page.handleFetchStatusList, Page.applyResult. cbv zeta.
  destruct (fetchStatusList url) as [|[[] [d|] err [i|]]]; try reflexivity.
  cbn [Page.success Page.data Page.urlBitIndex].
  destruct (BitstringService.getBitStatus _ i); reflexivity.
Qed.

Lemma handleFetchStatusList_auto
  (fetchStatusList : string -> JS.Completion Page.FetchResult)
  (url : string) (st : Page.State) :
  Page.autoCheckResult (Page.handleFetchStatusList fetchStatusList url st)
  = match fetchStatusList url with
    | inr result =>
        match Page.success result, Page.data result,
              Page.urlBitIndex result with
        | true, Some d, Some i =>
            match BitstringService.getBitStatus
                    (BitstringService.decodedBits d) i with
            | inr bitStatus => Some (i, bitStatus)
            | inl _ => None
            end
        | _, _, _ => None
        end
    | inl _ => None
    end.
Proof.
  unfold Page.handleFetchStatusList, Page.applyResult. cbv zeta.
  destruct (fetchStatusList url) as [|[[] [d|] err [i|]]]; try reflexivity.
  cbn [Page.success Page.data Page.urlBitIndex].
  destruct (BitstringService.getBitStatus _ i); reflexivity.
Qed.

(** After [handleFetchStatusList] the page is no longer loading and
    remembers the URL; exactly one of the decoded list and the error is
    shown, the list exactly when the service resolved to a successful result
    that carries one.  An auto-check result is shown exactly when that
    result also names a bit index the list has, and it is then the bit of
    the decoded list at this index.  A rejected call is reported as
    [UNKNOWN_ERROR] with what was thrown; a failed result with its own
    error, or with a fixed [UNKNOWN_ERROR] when it has none. *)
Theorem handleFetchStatusList_outcome
  (fetchStatusList : string -> JS.Completion Page.FetchResult)
  (url : string) (st : Page.State) :
  let st' := Page.handleFetchStatusList fetchStatusList url st in
  Page.loading st' = false
  /\ Page.currentUrl st' = url
  /\ (Page.decoded st' = None <-> Page.error st' <> None)
  /\ (forall d,
        Page.decoded st' = Some d
        <-> exists result,
              fetchStatusList url = inr result
              /\ Page.success result = true
              /\ Page.data result = Some d)
  /\ (forall i b,
        Page.autoCheckResult st' = Some (i, b)
        <-> exists result d,
              fetchStatusList url = inr result
              /\ Page.success result = true
              /\ Page.data result = Some d
              /\ Page.urlBitIndex result = Some i
              /\ 0 <= i <= 8 * lengthOf (BitstringService.decodedBits d) - 1
              /\ b = specBit (BitstringService.decodedBits d) i)
  /\ (forall thrown,
        fetchStatusList url = inl thrown ->
        Page.error st'
        = Some (createError UNKNOWN_ERROR "An unexpected error occurred"
                  (Some (JS.messageOr "Unknown error" thrown)) None
                  (Some "Please try again or check the browser console for more details.")))
  /\ (forall result,
        fetchStatusList url = inr result ->
        Page.success result = false \/ Page.data result = None ->
        match Page.resultError result with
        | Some e => Page.error st' = Some e
        | None =>
            exists e,
              Page.error st' = Some e
              /\ code e = UNKNOWN_ERROR
              /\ message e = "Failed to fetch and decode status list"
        end).
Proof.
  cbv zeta.
  rewrite handleFetchStatusList_loading, handleFetchStatusList_url.
  rewrite handleFetchStatusList_decoded, handleFetchStatusList_error,
    handleFetchStatusList_auto.
  destruct (fetchStatusList url) as [thrown|[ok data err index]].
  - repeat match goal with |- _ /\ _ => split end; try reflexivity.
    + split; [discriminate | reflexivity].
    + intros d. split; [discriminate|].
      intros (result & Hr & _). discriminate Hr.
    + intros i b. split; [discriminate|].
      intros (result & d & Hr & _). discriminate Hr.
    + intros t [= <-]. reflexivity.
    + intros result Hr. discriminate Hr.
  - cbn [Page.success Page.data Page.resultError Page.urlBitIndex].
    repeat match goal with |- _ /\ _ => split end; try reflexivity.
    + destruct ok; [destruct data|]; split;
        try discriminate; try reflexivity; intros H; now elim H.
    + intros d. split.
      * destruct ok; [destruct data as [d0|]|]; try discriminate.
        intros [= <-]. eexists. repeat split.
      * intros (result & [= <-] & Hs & Hd). cbn in Hs, Hd.
        rewrite Hs, Hd. reflexivity.
    + intros i b. split.
      * destruct ok; [destruct data as [d|]|]; try discriminate.
        destruct index as [j|]; [|discriminate].
        destruct (BitstringService.getBitStatus
                    (BitstringService.decodedBits d) j)
          as [e|found] eqn:Hbit; [discriminate|].
        intros [= <- <-].
        assert (Hj : 0 <= j
                     <= 8 * lengthOf (BitstringService.decodedBits d) - 1).
        { apply getBitStatus_returns_iff. exists found. exact Hbit. }
        rewrite (getBitStatus_specBit _ _ Hj) in Hbit.
        injection Hbit as <-.
        eexists. exists d. repeat split; auto; lia.
      * intros (result & d & [= <-] & Hs & Hd & Hidx & Hrange & ->).
        cbn in Hs, Hd, Hidx. rewrite Hs, Hd, Hidx.
        rewrite (getBitStatus_specBit _ _ Hrange). reflexivity.
    + discriminate.
    + intros result [= <-].
      cbn [Page.success Page.data Page.resultError].
      intros Hfail.
      assert (Herr :
        match ok, data with
        | true, Some _ => None
        | _, _ =>
            Some match err with
                 | Some e => e
                 | None =>
                     createError UNKNOWN_ERROR
                       "Failed to fetch and decode status list"
                       (Some "An unexpected error occurred.") None None
                 end
        end
        = Some match err with
               | Some e => e
               | None =>
                   createError UNKNOWN_ERROR
                     "Failed to fetch and decode status list"
                     (Some "An unexpected error occurred.") None None
               end).
      { destruct Hfail as [->| ->]; [reflexivity|].
        destruct ok; reflexivity. }
      rewrite Herr. destruct err; [reflexivity|].
      eexists. repeat split.
Qed.

Variable parseInt : string -> option Z.

(** The range check of the viewer shows entries exactly when both inputs
    parse and name a valid range; then there are [end - start + 1] of them
    and no error; otherwise the data is empty and the error has code
    [INVALID_BIT_RANGE]. *)
Theorem handleRangeCheck_outcome
  (decoded : BitstringService.DecodedStatusList)
  (startIndex endIndex : string) :
  let result := Viewer.handleRangeCheck parseInt decoded startIndex endIndex in
  let B := BitstringService.decodedBits decoded in
  Viewer.type result = Viewer.range
  /\ ((exists start end_ entries,
         parseInt startIndex = Some start /\ parseInt endIndex = Some end_
         /\ 0 <= start /\ start <= end_ /\ end_ <= 8 * lengthOf B - 1
         /\ end_ - start + 1 <= 10000
         /\ Viewer.data result = inr entries
         /\ Z.of_nat (List.length entries) = end_ - start + 1
         /\ Viewer.error result = None)
      \/ (exists e,
            Viewer.data result = inr []
            /\ Viewer.error result = Some e
            /\ code e = INVALID_BIT_RANGE
            /\ ~ (exists start end_,
                    parseInt startIndex = Some start
                    /\ parseInt endIndex = Some end_
                    /\ 0 <= start /\ start <= end_
                    /\ end_ <= 8 * lengthOf B - 1
                    /\ end_ - start + 1 <= 10000))).
Proof.
  unfold Viewer.handleRangeCheck. cbv zeta.
  destruct (parseInt startIndex) as [start|] eqn:Hs.
  2:{ split; [reflexivity|]. right. eexists. repeat split.
      intros (? & ? & ? & _). discriminate. }
  destruct (parseInt endIndex) as [end_|] eqn:He.
  2:{ split; [reflexivity|]. right. eexists. repeat split.
      intros (? & ? & _ & ? & _). discriminate. }
  destruct (BitstringService.getBitRange
              (BitstringService.decodedBits decoded) start end_)
    as [e|entries] eqn:Hrange.
  - split; [reflexivity|]. right. exists e. cbn.
    repeat split.
    + unfold BitstringService.getBitRange in Hrange.
      repeat match type of Hrange with
             | (if ?c then _ else _) = _ =>
                 destruct c; [injection Hrange as <-; reflexivity|]
             | _ => progress cbv zeta in Hrange
             end.
      discriminate.
    + intros (s' & e' & [= <-] & [= <-] & H0 & H1 & H2 & H3).
      rewrite getBitRange_value in Hrange by assumption. discriminate.
  - split; [reflexivity|]. left.
    pose proof (getBitRange_inversion _ _ _ _ Hrange)
      as (H0 & H1 & H2 & H3 & ->).
    exists start, end_. eexists. cbn. repeat split; try assumption.
    rewrite length_map, indicesFrom_length. lia.
Qed.

(** The single-bit check of the viewer shows a bit exactly when the input
    parses to an index inside the list; otherwise the data is [false], no
    index is shown and the error has code [INVALID_BIT_INDEX]. *)
Theorem handleSingleBitCheck_outcome
  (decoded : BitstringService.DecodedStatusList) (singleIndex : string) :
  let result := Viewer.handleSingleBitCheck parseInt decoded singleIndex in
  let B := BitstringService.decodedBits decoded in
  Viewer.type result = Viewer.single
  /\ ((exists i,
         parseInt singleIndex = Some i
         /\ 0 <= i <= 8 * lengthOf B - 1
         /\ Viewer.data result = inl (specBit B i)
         /\ Viewer.index result = Some i
         /\ Viewer.error result = None)
      \/ (exists e,
            Viewer.data result = inl false
            /\ Viewer.index result = None
            /\ Viewer.error result = Some e
            /\ code e = INVALID_BIT_INDEX
            /\ ~ (exists i, parseInt singleIndex = Some i
                            /\ 0 <= i <= 8 * lengthOf B - 1))).
Proof.
  unfold Viewer.handleSingleBitCheck. cbv zeta.
  destruct (parseInt singleIndex) as [i|] eqn:Hp.
  2:{ split; [reflexivity|]. right. eexists. repeat split.
      intros (? & ? & _). discriminate. }
  destruct (BitstringService.getBitStatus
              (BitstringService.decodedBits decoded) i) as [e|b] eqn:Hb.
  - split; [reflexivity|]. right. exists e. cbn. repeat split.
    + unfold BitstringService.getBitStatus in Hb.
      destruct (i <? 0); [injection Hb as <-; reflexivity|].
      cbv zeta in Hb.
      destruct (JS.floorDiv8 i >=? _); [injection Hb as <-; reflexivity|].
      discriminate.
    + intros (i' & [= <-] & Hi).
      rewrite getBitStatus_specBit in Hb by exact Hi. discriminate.
  - split; [reflexivity|]. left. exists i.
    assert (Hi : 0 <= i <= 8 * lengthOf (BitstringService.decodedBits decoded) - 1)
      by (apply getBitStatus_returns_iff; now exists b).
    rewrite getBitStatus_specBit in Hb by exact Hi. injection Hb as <-.
    cbn [Viewer.data Viewer.index Viewer.error].
    destruct Hi as [Hlow Hhigh]. repeat split; try reflexivity; assumption.
Qed.

End PageAndViewer.

(** ** Worked instances *)

Example enveloped_fetch :
  BitstringService.fetchStatusList (RT := Cases.enveloping)
    "https://issuer.example/status/2"
  = inr Cases.envelopedResult.
Proof. reflexivity. Qed.

Example enveloped_fetch_throwing :
  ThrowingDecoder.fetchStatusList (RT := Cases.enveloping)
    "https://issuer.example/status/2"
  = inr Cases.envelopedResult.
Proof. reflexivity. Qed.

Lemma decodeStatusList_base64_fallback_witness :
  exists e,
    BitstringService.decodeStatusList_base64 (RT := Sample.runtime)
      (JS.JString "?") = Returned e
    /\ code e = BASE64_DECODE_ERROR.
Proof.
  apply (proj2 (proj2 (proj2
           (decodeStatusList_base64_fallback (RT := Sample.runtime) "?"
              (JS.ThrownTypeError "Invalid character") eq_refl)))
           (JS.ThrownError "Invalid character")).
  reflexivity.
Defined.

Lemma decodeStatusList_gzip_only_witness :
  exists e,
    BitstringService.decodeStatusList (RT := Cases.truncatedGzip)
      (JS.JString "H4sA") = inr (inl e)
    /\ code e = GZIP_DECODE_ERROR
    /\ details e
       = Some ("The GZIP compressed data could not be decompressed. "
               ++ JS.messageOr "Unknown error" JS.ThrownOther).
Proof.
  apply (proj2 (decodeStatusList_gzip_only (RT := Cases.truncatedGzip)
                  (JS.JString "H4sA") [Byte.x00] eq_refl)
           JS.ThrownOther).
  reflexivity.
Defined.

Lemma decodeStatusList_string_errors_witness :
  exists e,
    BitstringService.decodeStatusList (RT := Sample.runtime)
      (JS.JString "?") = inr (inl e)
    /\ ((code e = BASE64_DECODE_ERROR
         /\ (exists t,
               base64url_toBuffer (Runtime := Sample.runtime)
                 (JS.JString "?") = inl t)
         /\ (exists t,
               atob (Runtime := Sample.runtime)
                 (BitstringService.padLoop
                    (JS.replaceAll "_" "/" (JS.replaceAll "-" "+" "?")))
               = inl t))
        \/ (code e = GZIP_DECODE_ERROR
            /\ exists compressed,
                 BitstringService.decodeStatusList_base64
                   (RT := Sample.runtime) (JS.JString "?")
                 = Next compressed
                 /\ BitstringService.hasGzipMagic compressed = true
                 /\ exists t,
                      inflate (Runtime := Sample.runtime) compressed
                      = inl t)).
Proof.
  eexists. split; [reflexivity|].
  apply (decodeStatusList_string_errors (RT := Sample.runtime) "?").
  reflexivity.
Defined.

Lemma decodeEnvelopedCredential_token_parts_witness :
  exists e,
    BitstringService.decodeEnvelopedCredential_token (RT := Sample.runtime)
      "e30.e30" = Returned e
    /\ code e = JWT_PARSE_ERROR
    /\ message e = "Invalid JWT structure"
    /\ details e
       = Some ("JWT must have 3 parts (header.payload.signature), but found "
               ++ JS.numberToString (Z.of_nat (S (occurrences "." "e30.e30")))
               ++ " parts.").
Proof.
  apply (decodeEnvelopedCredential_token_parts (RT := Sample.runtime)
           "e30.e30").
  - discriminate.
  - vm_compute. discriminate.
Defined.

Lemma decodeEnvelopedCredential_token_payload_only_witness :
  BitstringService.decodeEnvelopedCredential_token (RT := Cases.enveloping)
    ("eyJhbGciOiJFUzI1NiJ9" ++ "." ++ Cases.payloadSegment ++ "." ++ "c2ln")
  = BitstringService.decodeEnvelopedCredential_token (RT := Cases.enveloping)
      ("e30" ++ "." ++ Cases.payloadSegment ++ "." ++ "Zm9yZ2Vk").
Proof.
  apply (decodeEnvelopedCredential_token_payload_only
           (RT := Cases.enveloping)); reflexivity.
Defined.

Lemma decodeEnvelopedCredential_success_witness :
  (exists subject,
     JS.getProp Cases.unwrapped "credentialSubject" = inr subject
     /\ JS.truthy subject = true)
  /\ exists id prefix jwtToken,
       JS.getProp Cases.wrapper "id" = inr (JS.JString id)
       /\ In prefix BitstringService.possiblePrefixes
       /\ id = prefix ++ jwtToken
       /\ BitstringService.decodeEnvelopedCredential_token
            (RT := Cases.enveloping) jwtToken
          = Next Cases.unwrapped.
Proof.
  apply (decodeEnvelopedCredential_success (RT := Cases.enveloping)
           Cases.wrapper Cases.unwrapped).
  reflexivity.
Defined.

Lemma decodeEnvelopedCredential_errors_witness :
  exists e,
    BitstringService.decodeEnvelopedCredential (RT := Sample.runtime)
      Sample.enveloped = inl e
    /\ (In (code e)
          [JWT_PARSE_ERROR; BASE64_DECODE_ERROR; INVALID_JSON;
           INVALID_CREDENTIAL_FORMAT]
        \/ (code e = UNKNOWN_ERROR
            /\ message e = "Failed to decode enveloped credential")).
Proof.
  eexists. split; [reflexivity|].
  apply (decodeEnvelopedCredential_errors (RT := Sample.runtime)
           Sample.enveloped).
  reflexivity.
Defined.

Lemma decodeEnvelopedCredential_no_token_witness :
  exists e,
    BitstringService.decodeEnvelopedCredential (RT := Sample.runtime)
      (JS.JObject [ ("type", JS.JString "EnvelopedVerifiableCredential");
                    ("id", JS.JString "data:application/jwt,") ])
    = inl e
    /\ code e = JWT_PARSE_ERROR
    /\ (JS.truthy (JS.JString "data:application/jwt,") = false ->
        message e = "Missing JWT token")
    /\ (JS.truthy (JS.JString "data:application/jwt,") = true ->
        message e = "Empty JWT token").
Proof.
  apply (decodeEnvelopedCredential_no_token (RT := Sample.runtime)
           (JS.JObject
              [ ("type", JS.JString "EnvelopedVerifiableCredential");
                ("id", JS.JString "data:application/jwt,") ])
           (JS.JString "data:application/jwt,")).
  - reflexivity.
  - right. exists "data:application/jwt,". split; [|reflexivity].
    do 3 right. left. reflexivity.
Defined.

Lemma decodeEnvelopedCredential_id_not_string_witness :
  exists e,
    BitstringService.decodeEnvelopedCredential (RT := Sample.runtime)
      (JS.JObject [ ("type", JS.JString "EnvelopedVerifiableCredential");
                    ("id", JS.JNumber 5) ])
    = inl e
    /\ code e = UNKNOWN_ERROR.
Proof.
  apply (decodeEnvelopedCredential_id_not_string (RT := Sample.runtime)
           (JS.JObject
              [ ("type", JS.JString "EnvelopedVerifiableCredential");
                ("id", JS.JNumber 5) ])
           (JS.JNumber 5)).
  - reflexivity.
  - reflexivity.
  - intros s. discriminate.
Defined.

Lemma fetchStatusList_http_error_witness :
  exists e,
    BitstringService.fetchStatusList (RT := Cases.unavailable)
      "https://issuer.example/status/1" = inl e
    /\ statusCode e = Some 503
    /\ (503 = 404 -> code e = NOT_FOUND)
    /\ (503 = 401 -> code e = UNAUTHORIZED)
    /\ (503 = 403 -> code e = FORBIDDEN)
    /\ (503 = 502 -> code e = BAD_GATEWAY)
    /\ (503 = 503 -> code e = SERVICE_UNAVAILABLE)
    /\ (~ In 503 [404; 401; 403; 502; 503] -> code e = SERVER_ERROR).
Proof.
  apply (fetchStatusList_http_error (RT := Cases.unavailable)
           "https://issuer.example/status/1"
           (Http.mkResponse false 503 "Service Unavailable"
              (inl (JS.ThrownError "Unexpected end of JSON input"))));
    reflexivity.
Defined.

Lemma fetchStatusList_success_witness :
  exists encodedList,
    BitstringService.validateCredentialSubject
      (BitstringService.credential Sample.decoded)
    = Next (BitstringService.bitstringList Sample.decoded, encodedList)
    /\ BitstringService.decodeStatusList (RT := Sample.runtime) encodedList
       = inr (inr (BitstringService.decodedBits Sample.decoded))
    /\ BitstringService.totalBits Sample.decoded
       = lengthOf (BitstringService.decodedBits Sample.decoded) * 8.
Proof.
  apply (fetchStatusList_success (RT := Sample.runtime)
           "https://issuer.example/status/1" Sample.decoded).
  reflexivity.
Defined.

Lemma fetchStatusList_origin_witness :
  exists response document,
    fetch (Runtime := Cases.enveloping) "https://issuer.example/status/2"
    = inr response
    /\ Http.json response = inr document
    /\ ((JS.getProp document "type"
         = inr (JS.JString "EnvelopedVerifiableCredential")
         /\ BitstringService.credentialType Cases.envelopedResult
            = BitstringService.enveloped
         /\ BitstringService.originalEnvelopedCredential
              Cases.envelopedResult = Some document
         /\ BitstringService.decodeEnvelopedCredential
              (RT := Cases.enveloping) document
            = inr (BitstringService.credential Cases.envelopedResult))
        \/ (JS.getProp document "type"
            <> inr (JS.JString "EnvelopedVerifiableCredential")
            /\ BitstringService.credentialType Cases.envelopedResult
               = BitstringService.embedded
            /\ BitstringService.originalEnvelopedCredential
                 Cases.envelopedResult = None
            /\ BitstringService.credential Cases.envelopedResult
               = document)).
Proof.
  apply (fetchStatusList_origin (RT := Cases.enveloping)
           "https://issuer.example/status/2" Cases.envelopedResult).
  reflexivity.
Defined.

Lemma fetchStatusList_type_dispatch_witness :
  (exists e,
     BitstringService.fetchStatusList
       (RT := Cases.serving (JS.JObject [ ("type", JS.JNumber 7) ]))
       "https://issuer.example/status/3" = inl e
     /\ code e = UNSUPPORTED_CREDENTIAL_TYPE
     /\ exists d, details e = Some d /\ JS.includes d "7" = true)
  /\ (exists e,
        BitstringService.fetchStatusList
          (RT := Cases.serving
                   (JS.JObject
                      [ ("type", JS.JObject [ ("toString", JS.JNumber 1) ]) ]))
          "https://issuer.example/status/3" = inl e
        /\ code e = UNKNOWN_ERROR
        /\ message e = "An unexpected error occurred"
        /\ details e = Some "Cannot convert object to primitive value").
Proof.
  split.
  - apply (proj1 (proj2 (proj2
             (fetchStatusList_type_dispatch
                (RT := Cases.serving (JS.JObject [ ("type", JS.JNumber 7) ]))
                "https://issuer.example/status/3"
                (Http.mkResponse true 200 "OK"
                   (inr (JS.JObject [ ("type", JS.JNumber 7) ])))
                (JS.JObject [ ("type", JS.JNumber 7) ])
                eq_refl eq_refl eq_refl)))
             (JS.JNumber 7) "7"); reflexivity.
  - apply (proj1 (proj2 (proj2 (proj2
             (fetchStatusList_type_dispatch
                (RT := Cases.serving
                         (JS.JObject
                            [ ("type",
                               JS.JObject [ ("toString", JS.JNumber 1) ]) ]))
                "https://issuer.example/status/3"
                (Http.mkResponse true 200 "OK"
                   (inr (JS.JObject
                           [ ("type",
                              JS.JObject [ ("toString", JS.JNumber 1) ]) ])))
                (JS.JObject
                   [ ("type", JS.JObject [ ("toString", JS.JNumber 1) ]) ])
                eq_refl eq_refl eq_refl))))
             (JS.JObject [ ("toString", JS.JNumber 1) ])
             (JS.ThrownTypeError "Cannot convert object to primitive value"));
      reflexivity.
Defined.

Lemma fetchStatusList_enveloped_subject_witness :
  exists e,
    BitstringService.fetchStatusList (RT := Cases.serving Sample.enveloped)
      "https://issuer.example/status/4" = inl e
    /\ code e <> MISSING_BITSTRING_LIST.
Proof.
  eexists. split; [reflexivity|].
  apply (fetchStatusList_enveloped_subject
           (RT := Cases.serving Sample.enveloped)
           "https://issuer.example/status/4"
           (Http.mkResponse true 200 "OK" (inr Sample.enveloped))
           Sample.enveloped); reflexivity.
Defined.

Lemma fetchStatusList_indices_witness :
  (exists b,
     BitstringService.getBitStatus
       (BitstringService.decodedBits Sample.decoded) 15 = inr b)
  <-> 0 <= 15 < BitstringService.totalBits Sample.decoded.
Proof.
  apply (fetchStatusList_indices (RT := Sample.runtime)
           "https://issuer.example/status/1" Sample.decoded 15).
  reflexivity.
Defined.

Lemma formatCredentialInfo_fetched_witness :
  exists info,
    Info.formatCredentialInfo Sample.decoded = inr info
    /\ Info.credentialType info
       = BitstringService.credentialType Sample.decoded
    /\ Info.totalBits info
       = lengthOf (BitstringService.decodedBits Sample.decoded) * 8
    /\ BitstringService.statusPurpose Sample.decoded
       = inr (Info.statusPurpose info)
    /\ JS.getProp (BitstringService.credential Sample.decoded) "issuer"
       = inr (Info.issuer info)
    /\ JS.getProp (BitstringService.bitstringList Sample.decoded) "id"
       = inr (Info.id info).
Proof.
  apply (formatCredentialInfo_fetched (RT := Sample.runtime)
           "https://issuer.example/status/1" Sample.decoded).
  reflexivity.
Defined.

Lemma getBitRange_concat_witness :
  exists front back,
    BitstringService.getBitRange [Byte.x05; Byte.x80] 0 7 = inr front
    /\ BitstringService.getBitRange [Byte.x05; Byte.x80] (7 + 1) 15
       = inr back
    /\ BitstringService.getBitRange [Byte.x05; Byte.x80] 0 15
       = inr (front ++ back)%list.
Proof.
  eexists. eexists. split; [reflexivity|]. split; [reflexivity|].
  apply (getBitRange_concat [Byte.x05; Byte.x80] 0 7 15).
  - reflexivity.
  - reflexivity.
  - vm_compute. discriminate.
Defined.

Lemma accessor_stable_under_append_witness :
  BitstringService.getBitStatus ([Byte.x05] ++ [Byte.x80])%list 2 = inr true.
Proof.
  apply (proj1 (accessor_stable_under_append [Byte.x05] [Byte.x80]) 2 true).
  reflexivity.
Defined.

Lemma throwing_getBitStatus_out_of_range_witness :
  exists msg,
    ThrowingService.getBitStatus [Byte.x00] 8 = inl (JS.ThrownError msg)
    /\ JS.includes msg (JS.numberToString (8 * lengthOf [Byte.x00] - 1))
       = true.
Proof.
  apply (proj1 (throwing_getBitStatus_out_of_range [Byte.x00] 8)).
  vm_compute. discriminate.
Defined.

Lemma getBitRange_revisions_witness :
  ThrowingService.getBitRange [Byte.x05; Byte.x80] 6 9
  = inr [mkBitStatus 6 false "revocation"; mkBitStatus 7 false "revocation";
         mkBitStatus 8 false "revocation"; mkBitStatus 9 false "revocation"].
Proof.
  apply (proj1 (getBitRange_revisions [Byte.x05; Byte.x80] 6 9)).
  reflexivity.
Defined.

Lemma decodeStatusList_revisions_witness :
  ThrowingDecoder.decodeStatusList (RT := Sample.runtime) (JS.JString "B4A")
  = inr [Byte.x07; Byte.x80].
Proof.
  apply (proj1 (decodeStatusList_revisions (RT := Sample.runtime)
                  (JS.JString "B4A"))).
  reflexivity.
Defined.

Lemma decodeEnvelopedCredential_revisions_witness :
  ThrowingDecoder.decodeEnvelopedCredential (RT := Cases.enveloping)
    Cases.wrapper
  = inr Cases.unwrapped.
Proof.
  apply (decodeEnvelopedCredential_revisions (RT := Cases.enveloping)
           Cases.wrapper Cases.unwrapped Cases.wrapperId); reflexivity.
Defined.

Lemma fetchStatusList_revisions_witness :
  ThrowingDecoder.fetchStatusList (RT := Cases.enveloping)
    "https://issuer.example/status/2"
  = inr Cases.envelopedResult.
Proof.
  apply (fetchStatusList_revisions (RT := Cases.enveloping)
           "https://issuer.example/status/2" Cases.envelopedResult).
  - reflexivity.
  - intros wrapper id [= <-] [= <-]. reflexivity.
Defined.

Lemma handleFetchStatusList_outcome_witness :
  Page.autoCheckResult
    (Page.handleFetchStatusList (Cases.resolving (Some 2))
       "https://issuer.example/status/1#2" Cases.blank)
  = Some (2, true).
Proof.
  apply (proj1 (proj2 (proj2 (proj2 (proj2
           (handleFetchStatusList_outcome (Cases.resolving (Some 2))
              "https://issuer.example/status/1#2" Cases.blank)))))
           2 true).
  exists (Page.mkResult true (Some Sample.decoded) None (Some 2)).
  exists Sample.decoded.
  repeat split; vm_compute; congruence.
Defined.

(** An index the list does not have leaves the auto-check result empty;
    the list itself is shown all the same. *)
Example handleFetchStatusList_index_out_of_range :
  let st := Page.handleFetchStatusList (Cases.resolving (Some 16))
              "https://issuer.example/status/1#16" Cases.blank in
  Page.decoded st = Some Sample.decoded
  /\ Page.autoCheckResult st = None
  /\ Page.error st = None.
Proof. repeat split. Qed.

(** A rejected call ends in the [catch] block of the handler. *)
Example handleFetchStatusList_rejected :
  let st := Page.handleFetchStatusList Cases.rejecting
              "https://issuer.example/status/1" Cases.blank in
  Page.loading st = false
  /\ Page.decoded st = None
  /\ Page.error st
     = Some (createError UNKNOWN_ERROR "An unexpected error occurred"
               (Some "Failed to fetch") None
               (Some "Please try again or check the browser console for more details.")).
Proof. repeat split. Qed.

(** An encoded list that is [null]: the package and the manual fallback
    both throw, and so does the [catch] block. *)
Example decodeStatusList_null :
  BitstringService.decodeStatusList (RT := Sample.runtime) JS.JNull
  = inl (JS.ThrownTypeError
           "Cannot read properties of null (reading 'substring')").
Proof. reflexivity. Qed.

(** A served credential whose encoded list is an object the decoder cannot
    read: what [decodeStatusList] throws is caught by [fetchStatusList]. *)
Example fetchStatusList_unreadable_list :
  exists e,
    BitstringService.fetchStatusList
      (RT := Cases.serving
               (JS.JObject
                  [ ("type", JS.JArray [ JS.JString "VerifiableCredential" ]);
                    ("credentialSubject",
                     JS.JObject
                       [ ("type", JS.JString "BitstringStatusList");
                         ("encodedList",
                          JS.JObject [ ("toString", JS.JNumber 1) ]) ]) ]))
      "https://issuer.example/status/4" = inl e
    /\ code e = UNKNOWN_ERROR
    /\ message e = "An unexpected error occurred"
    /\ details e = Some "encodedList.substring is not a function".
Proof. eexists. repeat split. Qed.
